(** * simple-rag-api: document pipeline, vector store, RAG service and routes

    A shallow embedding of the JavaScript sources

      - [src/utils/documentProcessor.js]  (chunking, embeddings, processFile)
      - [src/utils/vectorStore.js]        (Qdrant wrapper)
      - [src/utils/contentGenerator.js]   (completion and mock answers)
      - [src/services/ragService.js]      (indexDocument, chat, status)
      - [src/routes/ragRoutes.js]         (the chat route)

    JavaScript strings are modelled as [string] (code units below 256),
    integral JavaScript numbers as [Z], floating point values of embeddings
    and scores as real numbers extended with the non-finite values, objects
    used as dictionaries as [gmap string _], and [async] functions as
    computations over an explicit [World] that may throw. *)

From Stdlib Require Import ZArith String Ascii List Reals Lia Lra.
From stdpp Require Import base gmap strings list pretty.
Import ListNotations.

Local Open Scope string_scope.

(** ** JavaScript strings *)

Module Js.

(** [WhiteSpace] and [LineTerminator] code units below 256: what [\s]
    matches and what [String.prototype.trim] strips. *)
Definition isWhiteSpace (c : ascii) : bool :=
  match N_of_ascii c with
  | 9%N | 10%N | 11%N | 12%N | 13%N | 32%N | 160%N => true
  | _ => false
  end.

Definition isNewline (c : ascii) : bool :=
  match N_of_ascii c with
  | 10%N => true
  | _ => false
  end.

Fixpoint take (n : nat) (s : string) : string :=
  match n, s with
  | S k, String c s' => String c (take k s')
  | _, _ => EmptyString
  end.

Fixpoint drop (n : nat) (s : string) : string :=
  match n, s with
  | S k, String _ s' => drop k s'
  | _, _ => s
  end.

(** Relative index of [slice]: negative counts from the end, and the
    result is clamped to [0, len]. *)
Definition clampIndex (len i : Z) : Z :=
  if (i <? 0)%Z then Z.max (len + i) 0 else Z.min i len.

(** [s.slice(start, end)] *)
Definition slice (s : string) (start end_ : Z) : string :=
  let len := Z.of_nat (String.length s) in
  let from := clampIndex len start in
  let to := clampIndex len end_ in
  take (Z.to_nat (to - from)) (drop (Z.to_nat from) s).

(** [s.slice(start)] *)
Definition sliceFrom (s : string) (start : Z) : string :=
  slice s start (Z.of_nat (String.length s)).

Fixpoint trimStart (s : string) : string :=
  match s with
  | String c s' => if isWhiteSpace c then trimStart s' else s
  | EmptyString => EmptyString
  end.

Fixpoint trimEnd (s : string) : string :=
  match s with
  | String c s' =>
      match trimEnd s' with
      | EmptyString => if isWhiteSpace c then EmptyString else String c EmptyString
      | r => String c r
      end
  | EmptyString => EmptyString
  end.

(** [s.trim()] *)
Definition trim (s : string) : string := trimEnd (trimStart s).

(** [s.replace(/\n+/g, ' ')]: every maximal run of newlines becomes one
    space; [inRun] says that the previous character was a newline. *)
Fixpoint replaceNewlineRuns (inRun : bool) (s : string) : string :=
  match s with
  | String c s' =>
      if isNewline c
      then (if inRun then replaceNewlineRuns true s'
            else String " " (replaceNewlineRuns true s'))
      else String c (replaceNewlineRuns false s')
  | EmptyString => EmptyString
  end.

(** [s.includes(pat)] *)
Definition includes (s pat : string) : bool :=
  match index 0 pat s with
  | Some _ => true
  | None => false
  end.

Definition lowerChar (c : ascii) : ascii :=
  let n := N_of_ascii c in
  if ((65 <=? n) && (n <=? 90) || (192 <=? n) && (n <=? 222) && negb (n =? 215))%N
  then ascii_of_N (n + 32)
  else c.

(** [s.toLowerCase()] *)
Fixpoint toLowerCase (s : string) : string :=
  match s with
  | String c s' => String (lowerChar c) (toLowerCase s')
  | EmptyString => EmptyString
  end.

(** The head piece of a split under construction receives one more
    character at its front. *)
Definition consHead (c : ascii) (pieces : list string) : list string :=
  match pieces with
  | p :: ps => String c p :: ps
  | [] => [String c EmptyString]
  end.

(** After a newline: the number of characters that [\s*\n] consumes when
    it matches here. [\s*] is greedy and [\s] contains the newline, so the
    match ends behind the last newline of the white space run. *)
Fixpoint blankLineTail (s : string) : option nat :=
  match s with
  | String c s' =>
      if isWhiteSpace c then
        match blankLineTail s' with
        | Some k => Some (S k)
        | None => if isNewline c then Some 1 else None
        end
      else None
  | EmptyString => None
  end.

(** [s.split(/\n\s*\n/)] past the first [skip] characters of [s], which
    belong to a separator already matched. The separator is searched from
    the left at every position; the text between two matches is a piece,
    and the text behind the last match is the last piece. *)
Fixpoint splitBlankLinesFrom (skip : nat) (s : string) : list string :=
  match s with
  | String c s' =>
      match skip with
      | S k => splitBlankLinesFrom k s'
      | O =>
          match (if isNewline c then blankLineTail s' else None) with
          | Some k => EmptyString :: splitBlankLinesFrom k s'
          | None => consHead c (splitBlankLinesFrom 0 s')
          end
      end
  | EmptyString => [EmptyString]
  end.

Definition splitBlankLines (s : string) : list string :=
  splitBlankLinesFrom 0 s.

Definition isSentenceEnd (c : ascii) : bool :=
  match N_of_ascii c with
  | 46%N | 33%N | 63%N => true
  | _ => false
  end.

(** [s.split(/[.!?]+/)]: [inRun] says that the previous character was
    part of the separator being consumed. A non-empty [s] is assumed by
    the wrapper below, which treats the empty string as [split] does. *)
Fixpoint splitSentencesFrom (inRun : bool) (s : string) : list string :=
  match s with
  | String c s' =>
      if isSentenceEnd c
      then (if inRun then splitSentencesFrom true s'
            else EmptyString :: splitSentencesFrom true s')
      else consHead c (splitSentencesFrom false s')
  | EmptyString => [EmptyString]
  end.

Definition splitSentences (s : string) : list string :=
  splitSentencesFrom false s.

(** [pieces.join(sep)] *)
Definition join (sep : string) (pieces : list string) : string :=
  String.concat sep pieces.

(** [xs.slice(start, end)] on arrays. *)
Definition arraySlice {A} (xs : list A) (start end_ : Z) : list A :=
  let len := Z.of_nat (length xs) in
  let from := clampIndex len start in
  let to := clampIndex len end_ in
  firstn (Z.to_nat (to - from)) (skipn (Z.to_nat from) xs).

End Js.

(** ** Values, errors and the world *)

Definition newline : string := String "010"%char EmptyString.
Definition dquote : string := String "034"%char EmptyString.

(** Floating point values: finite values are read as real numbers; the
    non-finite values are what a division by zero produces. *)
Inductive JsNum :=
| Num (r : R)
| Infinity (negative : bool)
| NaN.

(** [x / y] for finite [x] and [y]. *)
Definition jsDiv (x y : R) : JsNum :=
  if Req_dec_T y 0%R then
    if Req_dec_T x 0%R then NaN
    else if Rlt_dec x 0%R then Infinity true else Infinity false
  else Num (x / y)%R.

(** Values of request bodies and of payloads stored in the vector index. *)
Inductive JsVal :=
| VUndefined
| VNull
| VBool (b : bool)
| VNumber (z : Z)
| VString (s : string)
| VObject.

Definition truthy (v : JsVal) : bool :=
  match v with
  | VUndefined | VNull => false
  | VBool b => b
  | VNumber z => negb (z =? 0)%Z
  | VString s => negb (String.eqb s EmptyString)
  | VObject => true
  end.

(** Conversion of a value inside a template literal. *)
Definition toString (v : JsVal) : string :=
  match v with
  | VUndefined => "undefined"
  | VNull => "null"
  | VBool true => "true"
  | VBool false => "false"
  | VNumber z => pretty z
  | VString s => s
  | VObject => "[object Object]"
  end.

(** [a || b] *)
Definition orElse (a b : JsVal) : JsVal := if truthy a then a else b.

(** Thrown values are [Error] objects; only [message] is ever read. *)
Inductive JsError := Error (message : string).

Definition message (e : JsError) : string :=
  match e with Error m => m end.

Inductive Result (A : Type) :=
| Ok (a : A)
| Throw (e : JsError).
Arguments Ok {A} a.
Arguments Throw {A} e.

(** A pending request to a collaborator: when it settles, and how. *)
Record Async (A : Type) := { latency : Z; outcome : Result A }.
Arguments latency {A} _.
Arguments outcome {A} _.

(** Registry entry of the service ([indexedDocuments]). *)
Record IndexedDocument := {
  documentId : string;
  chunksCount : nat;
  filename : string;
  fileType : string;
  createdAt : string
}.

(** The mutable state a request can see or change: the clock in
    milliseconds, the number of ids, random values and requests drawn so
    far, the upload directory, and the module level state of
    [vectorStore.js] and [ragService.js]. *)
Record World := {
  clock : Z;
  uuids : nat;
  draws : nat;
  requests : nat;
  fs : gmap string string;
  initialized : bool;
  indexedDocuments : list (string * IndexedDocument)
}.

Definition setClock (t : Z) (w : World) : World :=
  {| clock := t; uuids := uuids w; draws := draws w; requests := requests w;
     fs := fs w; initialized := initialized w;
     indexedDocuments := indexedDocuments w |}.

Definition setUuids (n : nat) (w : World) : World :=
  {| clock := clock w; uuids := n; draws := draws w; requests := requests w;
     fs := fs w; initialized := initialized w;
     indexedDocuments := indexedDocuments w |}.

Definition setDraws (n : nat) (w : World) : World :=
  {| clock := clock w; uuids := uuids w; draws := n; requests := requests w;
     fs := fs w; initialized := initialized w;
     indexedDocuments := indexedDocuments w |}.

Definition setRequests (n : nat) (w : World) : World :=
  {| clock := clock w; uuids := uuids w; draws := draws w; requests := n;
     fs := fs w; initialized := initialized w;
     indexedDocuments := indexedDocuments w |}.

Definition setFs (files : gmap string string) (w : World) : World :=
  {| clock := clock w; uuids := uuids w; draws := draws w; requests := requests w;
     fs := files; initialized := initialized w;
     indexedDocuments := indexedDocuments w |}.

Definition setIndexedDocuments (docs : list (string * IndexedDocument)) (w : World) : World :=
  {| clock := clock w; uuids := uuids w; draws := draws w; requests := requests w;
     fs := fs w; initialized := initialized w;
     indexedDocuments := docs |}.

Definition setInitialized (b : bool) (w : World) : World :=
  {| clock := clock w; uuids := uuids w; draws := draws w; requests := requests w;
     fs := fs w; initialized := b;
     indexedDocuments := indexedDocuments w |}.

(** [Map.prototype.set]: an existing key keeps its position. *)
Fixpoint mapSet {V} (k : string) (v : V) (m : list (string * V)) : list (string * V) :=
  match m with
  | [] => [(k, v)]
  | (k', v') :: m' =>
      if String.eqb k k' then (k, v) :: m' else (k', v') :: mapSet k v m'
  end.

(** [Array.from(m.values())] *)
Definition mapValues {V} (m : list (string * V)) : list V := map snd m.

(** ** Computations: state and exceptions *)

Definition M (A : Type) : Type := World -> Result A * World.

Definition ret {A} (a : A) : M A := fun w => (Ok a, w).

Definition throw {A} (e : JsError) : M A := fun w => (Throw e, w).

Definition bind {A B} (c : M A) (k : A -> M B) : M B :=
  fun w =>
    match c w with
    | (Ok a, w') => k a w'
    | (Throw e, w') => (Throw e, w')
    end.

(** [try { body } catch (error) { handler }]: the handler runs in the
    state the body left behind. *)
Definition tryCatch {A} (body : M A) (handler : JsError -> M A) : M A :=
  fun w =>
    match body w with
    | (Ok a, w') => (Ok a, w')
    | (Throw e, w') => handler e w'
    end.

Declare Scope js_scope.
Delimit Scope js_scope with js.
Notation "'let*' x := c 'in' k" := (bind c (fun x => k))
  (at level 10, x name, c at level 100, k at level 200) : js_scope.
Notation "'let*' ' p := c 'in' k" := (bind c (fun p => k))
  (at level 10, p pattern, c at level 100, k at level 200) : js_scope.
Local Open Scope js_scope.

Definition gets {A} (f : World -> A) : M A := fun w => (Ok (f w), w).

Definition modify (f : World -> World) : M unit := fun w => (Ok tt, f w).

Fixpoint mapM {A B} (f : A -> M B) (xs : list A) : M (list B) :=
  match xs with
  | [] => ret []
  | x :: xs' => let* y := f x in let* ys := mapM f xs' in ret (y :: ys)
  end.

(** [await Promise.all(xs.map(f))]: the results come back in the order of
    [xs]. The callbacks are run one after the other, which is one of the
    schedules of the event loop. *)
Definition promiseAll {A B} (f : A -> M B) (xs : list A) : M (list B) :=
  mapM f xs.

(** [await pending]: time passes until the request settles. *)
Definition await {A} (pending : Async A) : M A :=
  fun w => (outcome pending, setClock (clock w + latency pending) w).

(** [await Promise.race([pending, timeoutPromise])] where the timer
    rejects with [timeoutMessage] after [timeoutMs]. *)
Definition race {A} (pending : Async A) (timeoutMs : Z) (timeoutMessage : string) : M A :=
  fun w =>
    if (latency pending <? timeoutMs)%Z
    then (outcome pending, setClock (clock w + latency pending) w)
    else (Throw (Error timeoutMessage), setClock (clock w + timeoutMs) w).

(** [await new Promise(resolve => setTimeout(resolve, ms))] *)
Definition sleep (ms : Z) : M unit :=
  modify (fun w => setClock (clock w + ms) w).

(** The sequence number of the next request to a collaborator. *)
Definition nextRequest : M nat :=
  fun w => (Ok (requests w), setRequests (S (requests w)) w).

(** [new Date().toISOString()]: the time stamp is rendered as its count of
    milliseconds. *)
Definition toISOString : M string := gets (fun w => pretty (clock w)).

Definition hexDigit (n : nat) : ascii :=
  match n with
  | 0 => "0" | 1 => "1" | 2 => "2" | 3 => "3" | 4 => "4" | 5 => "5"
  | 6 => "6" | 7 => "7" | 8 => "8" | 9 => "9" | 10 => "a" | 11 => "b"
  | 12 => "c" | 13 => "d" | 14 => "e" | _ => "f"
  end%char.

(** [width] hexadecimal digits of [n], most significant first. *)
Fixpoint hex (width n : nat) : string :=
  match width with
  | O => EmptyString
  | S k => hex k (n / 16) ++ String (hexDigit (n mod 16)) EmptyString
  end.

(** [uuidv4()]: the [n]-th identifier handed out. Version and variant
    digits are those of a version 4 UUID. *)
Definition uuidOf (n : nat) : string :=
  "00000000-0000-4000-8000-" ++ hex 12 n.

Definition uuidv4 : M string :=
  fun w => (Ok (uuidOf (uuids w)), setUuids (S (uuids w)) w).

(** ** Collaborators *)

(** A point as it is written to the vector index. *)
Record Point := {
  point_id : string;
  vector : list JsNum;
  payload : gmap string JsVal
}.

(** A hit as the vector index returns it. *)
Record ScoredPoint := {
  hit_id : string;
  hit_score : JsNum;
  hit_payload : option (gmap string JsVal)
}.

Record CollectionInfo := { vectors_count : option Z }.

(** What lies outside the repository: the process environment, Node's
    [path] module and random numbers, the document parsers, the
    embedding and completion provider, and the Qdrant client. A request to
    a provider or to Qdrant is answered according to its sequence number. *)
Record Env := {
  OPENAI_API_KEY : bool;
  random : nat -> R;
  path_extname : string -> string;
  path_basename : string -> string;
  pdfParse : string -> Result string;
  extractRawText : string -> Result string;
  createEmbedding : nat -> string -> string -> Async (list JsNum);
  createChatCompletion :
    nat -> string -> list (string * string) -> JsNum -> Z -> Async string;
  qdrant_getCollections : nat -> Async (list string);
  qdrant_createCollection : nat -> string -> Z -> string -> Async unit;
  qdrant_upsert : nat -> string -> list Point -> Async unit;
  qdrant_search :
    nat -> string -> list JsNum -> Z -> JsNum -> Async (list ScoredPoint);
  qdrant_getCollection : nat -> string -> Async CollectionInfo
}.

(** [Math.random()] *)
Definition Math_random (env : Env) : M R :=
  fun w => (Ok (random env (draws w)), setDraws (S (draws w)) w).

(** [await readFileAsync(filePath)] *)
Definition readFileAsync (filePath : string) : M string :=
  fun w =>
    match fs w !! filePath with
    | Some data => (Ok data, w)
    | None => (Throw (Error ("ENOENT: no such file or directory, open '" ++ filePath ++ "'")), w)
    end.

(** [await unlinkAsync(filePath)] *)
Definition unlinkAsync (filePath : string) : M unit :=
  fun w =>
    match fs w !! filePath with
    | Some _ => (Ok tt, setFs (delete filePath (fs w)) w)
    | None => (Throw (Error ("ENOENT: no such file or directory, unlink '" ++ filePath ++ "'")), w)
    end.

(** ** [documentProcessor.js] *)

Module DocumentProcessor.

Record Chunk := {
  id : string;
  content : string;
  metadata : gmap string JsVal
}.

(** [{ ...chunk, embedding }], with [embeddingError] when the chunk
    carries a substitute vector. *)
Record EmbeddedChunk := {
  chunk : Chunk;
  embedding : list JsNum;
  embeddingError : option string
}.

Definition len (s : string) : Z := Z.of_nat (String.length s).

Definition extractTextFromFile (env : Env) (filePath fileType : string) : M string :=
  tryCatch
    (if String.eqb fileType "pdf" then
       let* pdfBuffer := readFileAsync filePath in
       match pdfParse env pdfBuffer with
       | Ok text => ret text
       | Throw e => throw e
       end
     else if String.eqb fileType "docx" then
       let* docxBuffer := readFileAsync filePath in
       match extractRawText env docxBuffer with
       | Ok value => ret value
       | Throw e => throw e
       end
     else if String.eqb fileType "image" then
       ret ("[Image: " ++ path_basename env filePath ++ "]")
     else if String.eqb fileType "ppt" then
       ret ("[PowerPoint: " ++ path_basename env filePath ++ "]")
     else
       ret ("[Unsupported file type: " ++ fileType ++ "]"))
    (fun error =>
       ret ("[Error extracting content from file: " ++ path_basename env filePath ++ "]")).

(** [chunks.push({ id: uuidv4(), content: currentChunk.trim(), metadata: { ...metadata } })] *)
Definition pushChunk (chunks : list Chunk) (currentChunk : string)
    (meta : gmap string JsVal) : M (list Chunk) :=
  let* fresh := uuidv4 in
  ret (chunks ++ [ {| id := fresh; content := Js.trim currentChunk; metadata := meta |} ])%list.

(** The body of [for (const paragraph of paragraphs)]: the state of the
    loop is [chunks] and [currentChunk]. *)
Fixpoint chunkParagraphs (paragraphs : list string) (chunkSize overlap : Z)
    (meta : gmap string JsVal) (chunks : list Chunk) (currentChunk : string)
    : M (list Chunk * string) :=
  match paragraphs with
  | [] => ret (chunks, currentChunk)
  | paragraph :: rest =>
      if ((len currentChunk + len paragraph >? chunkSize)
          && (len currentChunk >? 0))%Z
      then
        let* chunks' := pushChunk chunks currentChunk meta in
        let overlapText :=
          if (len currentChunk >? overlap)%Z
          then Js.sliceFrom currentChunk (- overlap)
          else currentChunk in
        chunkParagraphs rest chunkSize overlap meta chunks'
          (overlapText ++ " " ++ paragraph)
      else
        chunkParagraphs rest chunkSize overlap meta chunks
          (currentChunk
           ++ (if String.eqb currentChunk EmptyString then "" else newline ++ newline)
           ++ paragraph)
  end.

Definition splitTextIntoChunks (text : string) (chunkSize overlap : Z)
    (meta : gmap string JsVal) : M (list Chunk) :=
  if String.eqb text EmptyString then ret []
  else
    let paragraphs := Js.splitBlankLines text in
    let* '(chunks, currentChunk) :=
      chunkParagraphs paragraphs chunkSize overlap meta [] EmptyString in
    if (len (Js.trim currentChunk) >? 0)%Z
    then pushChunk chunks currentChunk meta
    else ret chunks.

(** [new Array(n).fill(0).map(() => Math.random() * 2 - 1)] *)
Fixpoint randomVector (env : Env) (n : nat) : M (list R) :=
  match n with
  | O => ret []
  | S k =>
      let* r := Math_random env in
      let* rest := randomVector env k in
      ret ((r * 2 - 1)%R :: rest)
  end.

Definition generateMockEmbedding (env : Env) (dimensions : nat) : M (list JsNum) :=
  let* embedding := randomVector env dimensions in
  let magnitude :=
    sqrt (fold_left (fun sum val => (sum + val * val)%R) embedding 0%R) in
  ret (map (fun val => jsDiv val magnitude) embedding).

(** [text.trim()] where [text] need not be a string. *)
Definition trimOf (text : JsVal) : M string :=
  match text with
  | VString s => ret (Js.trim s)
  | VUndefined =>
      throw (Error "Cannot read properties of undefined (reading 'trim')")
  | VNull =>
      throw (Error "Cannot read properties of null (reading 'trim')")
  | _ => throw (Error "text.trim is not a function")
  end.

Definition isRateLimit (error : JsError) : bool :=
  negb (String.eqb (message error) EmptyString)
  && (Js.includes (message error) "rate limit"
      || Js.includes (message error) "429"
      || Js.includes (message error) "too many requests").

(** The iterations [attempt, attempt + 1, ...] of the retry loop;
    [remaining] counts those for which [attempt <= retries] still holds. *)
Fixpoint embeddingAttempts (env : Env) (text : JsVal) (retries timeoutMs : Z)
    (remaining : nat) (attempt : Z) : M (list JsNum) :=
  match remaining with
  | O => generateMockEmbedding env 1536
  | S remaining' =>
      tryCatch
        (if negb (OPENAI_API_KEY env) then generateMockEmbedding env 1536
         else
           let* trimmed := trimOf text in
           let input := Js.slice (Js.replaceNewlineRuns false trimmed) 0 8000 in
           let* n := nextRequest in
           race (createEmbedding env n "text-embedding-ada-002" input) timeoutMs
             ("Embedding request timed out after " ++ pretty timeoutMs ++ "ms"))
        (fun error =>
           if (attempt =? retries)%Z then generateMockEmbedding env 1536
           else
             let baseWaitTime := if isRateLimit error then 2000%Z else 1000%Z in
             let waitTime := Z.min (baseWaitTime * 2 ^ (attempt - 1)) 15000 in
             let* _ := sleep waitTime in
             embeddingAttempts env text retries timeoutMs remaining' (attempt + 1)%Z)
  end.

Definition generateEmbedding (env : Env) (text : JsVal) (retries timeoutMs : Z)
    : M (list JsNum) :=
  embeddingAttempts env text retries timeoutMs (Z.to_nat retries) 1.

(** The callback of [batch.map] in [processFile]. *)
Definition embedChunk (env : Env) (c : Chunk) : M EmbeddedChunk :=
  tryCatch
    (let* e := generateEmbedding env (VString (content c)) 3 10000 in
     ret {| chunk := c; embedding := e; embeddingError := None |})
    (fun error =>
       let* e := generateMockEmbedding env 1536 in
       ret {| chunk := c; embedding := e; embeddingError := Some (message error) |}).

Definition BATCH_SIZE : Z := 5.

(** [for (let i = 0; i < chunks.length; i += BATCH_SIZE)], from index
    [i] on; every iteration moves [i] forward, so [length chunks]
    iterations are never used up. *)
Fixpoint embedBatches (env : Env) (chunks : list Chunk) (fuel : nat) (i : Z)
    (chunksWithEmbeddings : list EmbeddedChunk) : M (list EmbeddedChunk) :=
  if (i <? Z.of_nat (length chunks))%Z then
    match fuel with
    | O => ret chunksWithEmbeddings
    | S fuel' =>
        let batch :=
          Js.arraySlice chunks i (Z.min (i + BATCH_SIZE) (Z.of_nat (length chunks))) in
        let* batchResults := promiseAll (embedChunk env) batch in
        embedBatches env chunks fuel' (i + BATCH_SIZE)%Z
          (chunksWithEmbeddings ++ batchResults)%list
    end
  else ret chunksWithEmbeddings.

(** The chunks [processFile] goes on with after the limit was applied. *)
Definition limitChunks (chunks : list Chunk) (maxChunks : Z) : list Chunk :=
  if (Z.of_nat (length chunks) >? maxChunks)%Z
  then Js.arraySlice chunks 0 maxChunks
  else chunks.

Definition processFile (env : Env) (filePath fileType : string)
    (meta : gmap string JsVal) (maxChunks : Z) : M (list EmbeddedChunk) :=
  tryCatch
    (let* text := extractTextFromFile env filePath fileType in
     let* chunks := splitTextIntoChunks text 1000 200 meta in
     let chunks := limitChunks chunks maxChunks in
     embedBatches env chunks (length chunks) 0 [])
    (fun error => throw error).

End DocumentProcessor.

(** ** [vectorStore.js] *)

Module VectorStore.

Definition vectorSize : Z := 1536.

(** [{ success: true, created, existed }] or [{ success: false, error }] *)
Inductive CollectionResult :=
| CollectionOk (created existed : bool)
| CollectionFailed (error : string).

(** [{ success: true, documentsAdded, collectionWasCreated,
    collectionAlreadyExisted }] or [{ success: false, error }] *)
Inductive StoreResult :=
| StoreOk (documentsAdded : nat) (collectionWasCreated collectionAlreadyExisted : bool)
| StoreFailed (error : string).

Definition success (r : StoreResult) : bool :=
  match r with StoreOk _ _ _ => true | StoreFailed _ => false end.

Record SearchResult := {
  id : JsVal;
  content : JsVal;
  metadata : gmap string JsVal;
  score : JsNum
}.

Definition createCollection (env : Env) (collectionName : string) : M CollectionResult :=
  tryCatch
    (let* n := nextRequest in
     let* collections := await (qdrant_getCollections env n) in
     let exists_ := existsb (String.eqb collectionName) collections in
     if negb exists_ then
       let* n := nextRequest in
       let* _ := await (qdrant_createCollection env n collectionName vectorSize "Cosine") in
       ret (CollectionOk true false)
     else ret (CollectionOk false true))
    (fun error => ret (CollectionFailed (message error))).

Definition isHex (c : ascii) : bool :=
  let n := N_of_ascii c in
  ((48 <=? n) && (n <=? 57) || (97 <=? n) && (n <=? 102)
   || (65 <=? n) && (n <=? 70))%N.

Definition isDash (c : ascii) : bool := (N_of_ascii c =? 45)%N.

Definition isVersion (c : ascii) : bool :=
  let n := N_of_ascii c in ((49 <=? n) && (n <=? 53))%N.

Definition isVariant (c : ascii) : bool :=
  let n := N_of_ascii c in
  ((n =? 56) || (n =? 57) || (n =? 97) || (n =? 98) || (n =? 65) || (n =? 66))%N.

(** The character classes of
    [/^[0-9a-f]{8}-[0-9a-f]{4}-[1-5][0-9a-f]{3}-[89ab][0-9a-f]{3}-[0-9a-f]{12}$/i] *)
Definition uuidPattern : list (ascii -> bool) :=
  (repeat isHex 8 ++ [isDash] ++ repeat isHex 4 ++ [isDash]
   ++ [isVersion] ++ repeat isHex 3 ++ [isDash]
   ++ [isVariant] ++ repeat isHex 3 ++ [isDash] ++ repeat isHex 12)%list.

Fixpoint matchesClasses (classes : list (ascii -> bool)) (s : string) : bool :=
  match classes, s with
  | [], EmptyString => true
  | cl :: classes', String c s' => cl c && matchesClasses classes' s'
  | _, _ => false
  end.

Definition generatePointId (pointId : string) : M string :=
  tryCatch
    (if matchesClasses uuidPattern pointId then ret pointId else uuidv4)
    (fun e => uuidv4).

(** [documents.map(doc => ...)] in [addDocuments] *)
Definition toPoint (doc : DocumentProcessor.EmbeddedChunk) : M Point :=
  let c := DocumentProcessor.chunk doc in
  let originalId := DocumentProcessor.id c in
  let* qdrantId := generatePointId originalId in
  ret {| point_id := qdrantId;
         vector := DocumentProcessor.embedding doc;
         payload :=
           DocumentProcessor.metadata c
           ∪ <["original_id" := VString originalId]>
               (<["content" := VString (DocumentProcessor.content c)]> ∅) |}.

Definition batchSize : Z := 100.

(** [for (let i = 0; i < points.length; i += batchSize)], from index [i]
    on; [length points] iterations are never used up. *)
Fixpoint upsertBatches (env : Env) (collectionName : string) (points : list Point)
    (fuel : nat) (i : Z) : M unit :=
  if (i <? Z.of_nat (length points))%Z then
    match fuel with
    | O => ret tt
    | S fuel' =>
        let batch := Js.arraySlice points i (i + batchSize) in
        let* n := nextRequest in
        let* _ := await (qdrant_upsert env n collectionName batch) in
        upsertBatches env collectionName points fuel' (i + batchSize)%Z
    end
  else ret tt.

Definition addDocuments (env : Env) (collectionName : string)
    (documents : list DocumentProcessor.EmbeddedChunk) : M StoreResult :=
  tryCatch
    (let* collectionResult := createCollection env collectionName in
     match collectionResult with
     | CollectionFailed error =>
         throw (Error ("Failed to create collection: " ++ error))
     | CollectionOk created existed =>
         let* points := mapM toPoint documents in
         let* _ := upsertBatches env collectionName points (length points) 0 in
         ret (StoreOk (length documents) created existed)
     end)
    (fun error => ret (StoreFailed (message error))).

(** [searchResult.map(result => ...)]: reading [result.payload.original_id]
    throws when the hit carries no payload. *)
Definition toSearchResult (result : ScoredPoint) : M SearchResult :=
  match hit_payload result with
  | None =>
      throw (Error "Cannot read properties of undefined (reading 'original_id')")
  | Some p =>
      ret {| id := orElse (default VUndefined (p !! "original_id"))
                          (VString (hit_id result));
             content := default VUndefined (p !! "content");
             metadata := <["content" := VUndefined]> p;
             score := hit_score result |}
  end.

Definition search (env : Env) (collectionName : string) (queryEmbedding : list JsNum)
    (limit : Z) (minScore : JsNum) (timeoutMs : Z) : M (list SearchResult) :=
  tryCatch
    (let* n := nextRequest in
     let* collections := await (qdrant_getCollections env n) in
     let exists_ := existsb (String.eqb collectionName) collections in
     if negb exists_ then ret []
     else
       let* n := nextRequest in
       let* searchResult :=
         race (qdrant_search env n collectionName queryEmbedding limit minScore)
           timeoutMs
           ("Search operation timed out after " ++ pretty timeoutMs ++ "ms") in
       mapM toSearchResult searchResult)
    (fun error => ret []).

Definition getCollection (env : Env) (collectionName : string)
    : M (option CollectionInfo) :=
  tryCatch
    (let* n := nextRequest in
     let* info := await (qdrant_getCollection env n collectionName) in
     ret (Some info))
    (fun error => ret None).

(** [initialize()], which the constructor starts after it has set
    [this.initialized = false]. *)
Definition initialize (env : Env) : M unit :=
  tryCatch
    (let* n := nextRequest in
     let* _ := await (qdrant_getCollections env n) in
     modify (setInitialized true))
    (fun error => ret tt).

End VectorStore.

(** ** [contentGenerator.js] *)

Module ContentGenerator.

Definition defaultSystemPrompt : string :=
  "You are a helpful assistant that answers questions based on the context provided. "
  ++ "Your job is to provide accurate, helpful information from the context. "
  ++ "If the context doesn't contain information to answer the question, say "
  ++ dquote ++ "I don't have enough information to answer this question." ++ dquote ++ " "
  ++ "Do not make up information or use knowledge outside of the provided context.".

(** The callback of [contexts.slice(0, 2).map] in [_generateMockResponse];
    [ctx.content.split] throws unless the content is a string. *)
Definition contextSample (ctx : VectorStore.SearchResult) : M string :=
  match VectorStore.content ctx with
  | VString s =>
      let sentences :=
        filter (fun s => (0 <? String.length (Js.trim s))%nat) (Js.splitSentences s) in
      ret (Js.join ". " (Js.arraySlice sentences 0 2) ++ ".")
  | VUndefined =>
      throw (Error "Cannot read properties of undefined (reading 'split')")
  | VNull =>
      throw (Error "Cannot read properties of null (reading 'split')")
  | _ => throw (Error "ctx.content.split is not a function")
  end.

Definition _generateMockResponse (query : JsVal)
    (contexts : list VectorStore.SearchResult) : M string :=
  if (length contexts =? 0)%nat then
    ret "I don't have enough information to answer this question as no context was provided."
  else
    let* contextSamples := mapM contextSample (Js.arraySlice contexts 0 2) in
    ret ("Based on the information I have, I can tell you that "
         ++ Js.join " Furthermore, " contextSamples
         ++ " This information is directly based on the context provided. Is there anything specific about this you'd like me to elaborate on?").

(** [generateResponse(query, contexts)] with the default options. *)
Definition generateResponse (env : Env) (query : JsVal)
    (contexts : list VectorStore.SearchResult) : M string :=
  tryCatch
    (if negb (OPENAI_API_KEY env) then _generateMockResponse query contexts
     else
       let model := "gpt-3.5-turbo" in
       let systemPrompt := defaultSystemPrompt in
       let temperature := Num (7 / 10)%R in
       let maxTokens := 500%Z in
       let timeoutMs := 30000%Z in
       let contextText :=
         Js.join newline
           (map (fun ctx => "CONTEXT: " ++ toString (VectorStore.content ctx) ++ newline)
                contexts) in
       let messages :=
         [ ("system", systemPrompt);
           ("user",
            contextText ++ newline ++ newline ++ "QUESTION: " ++ toString query
            ++ newline ++ newline
            ++ "Please provide a response based on the above context.") ] in
       let* n := nextRequest in
       let* response :=
         race (createChatCompletion env n model messages temperature maxTokens)
           timeoutMs
           ("LLM request timed out after " ++ pretty timeoutMs ++ "ms") in
       ret (Js.trim response))
    (fun error => _generateMockResponse query contexts).

End ContentGenerator.

(** ** [ragService.js] *)

Module RagService.

Definition GLOBAL_COLLECTION_NAME : string := "global_documents".

(** The uploaded file object handed over by the upload middleware. *)
Record UploadedFile := {
  originalname : string;
  path : string
}.

(** [{ success: true, documentId, collectionName, documentCount, filename }]
    or [{ success: false, error }] *)
Inductive IndexResult :=
| IndexOk (documentId collectionName : string) (documentCount : nat) (filename : string)
| IndexFailed (error : string).

Record ChatContext := {
  content : JsVal;
  score : JsNum;
  source : JsVal
}.

(** [{ success: true, query, response, contexts }] or
    [{ success: false, query, error, response }] *)
Inductive ChatResult :=
| ChatOk (query : JsVal) (response : string) (contexts : list ChatContext)
| ChatFailed (query : JsVal) (error : string) (response : string).

(** The JSON value [getSystemStatus] answers with. *)
Module StatusJson.

Record GlobalCollection := {
  name : string;
  exists_ : bool;
  vectorCount : Z
}.

Record Status := {
  qdrantConnected : bool;
  openaiAvailable : bool;
  globalCollection : GlobalCollection;
  indexedDocuments : list IndexedDocument
}.

(** [{ success: true, status }] or [{ success: false, error }] *)
Inductive StatusResult :=
| StatusOk (status : Status)
| StatusFailed (error : string).

End StatusJson.

(** The [switch (fileExtension)] of [indexDocument]. *)
Definition fileTypeOf (fileExtension : string) : string :=
  if String.eqb fileExtension "pdf" then "pdf"
  else if String.eqb fileExtension "docx" || String.eqb fileExtension "doc" then "docx"
  else if String.eqb fileExtension "jpg" || String.eqb fileExtension "jpeg"
          || String.eqb fileExtension "png" then "image"
  else if String.eqb fileExtension "ppt" || String.eqb fileExtension "pptx" then "ppt"
  else if String.eqb fileExtension "txt" then "text"
  else "text".

Definition indexDocument (env : Env) (file : UploadedFile) : M IndexResult :=
  tryCatch
    (let fileExtension :=
       Js.drop 1 (Js.toLowerCase (path_extname env (originalname file))) in
     let fileType := fileTypeOf fileExtension in
     let* documentId := uuidv4 in
     let* created_at := toISOString in
     let meta : gmap string JsVal :=
       <["source_file" := VString (originalname file)]>
         (<["file_type" := VString fileType]>
            (<["created_at" := VString created_at]>
               (<["document_id" := VString documentId]> ∅))) in
     let* processedDocuments :=
       DocumentProcessor.processFile env (path file) fileType meta 25 in
     let* storeResult :=
       VectorStore.addDocuments env GLOBAL_COLLECTION_NAME processedDocuments in
     let* _ := tryCatch (unlinkAsync (path file)) (fun err => ret tt) in
     let* createdAt := toISOString in
     let* _ :=
       modify (fun w =>
         setIndexedDocuments
           (mapSet documentId
              {| documentId := documentId;
                 chunksCount := length processedDocuments;
                 filename := originalname file;
                 fileType := fileType;
                 createdAt := createdAt |}
              (indexedDocuments w)) w) in
     ret (IndexOk documentId GLOBAL_COLLECTION_NAME (length processedDocuments)
            (originalname file)))
    (fun error => ret (IndexFailed (message error))).

(** [doc => ({ content, score, source: doc.metadata?.source_file || 'Unknown' })] *)
Definition toContext (doc : VectorStore.SearchResult) : ChatContext :=
  {| content := VectorStore.content doc;
     score := VectorStore.score doc;
     source :=
       orElse (default VUndefined (VectorStore.metadata doc !! "source_file"))
              (VString "Unknown") |}.

Definition generateChatResponse (env : Env) (query : JsVal) : M ChatResult :=
  tryCatch
    (let* queryEmbedding := DocumentProcessor.generateEmbedding env query 3 10000 in
     let limit := 5%Z in
     let minScore := Num (7 / 10)%R in
     let* searchResults :=
       tryCatch
         (VectorStore.search env GLOBAL_COLLECTION_NAME queryEmbedding limit minScore 30000)
         (fun err => ret []) in
     let* response := ContentGenerator.generateResponse env query searchResults in
     ret (ChatOk query response (map toContext searchResults)))
    (fun error =>
       ret (ChatFailed query (message error)
              "I'm sorry, I encountered an error processing your query. Please try again.")).

Definition getSystemStatus (env : Env) : M StatusJson.StatusResult :=
  tryCatch
    (let* qdrantStatus := gets initialized in
     let openaiAvailable := OPENAI_API_KEY env in
     let* '(documentCount, collectionExists) :=
       tryCatch
         (let* collectionInfo := VectorStore.getCollection env GLOBAL_COLLECTION_NAME in
          match collectionInfo with
          | Some info => ret (default 0%Z (vectors_count info), true)
          | None => ret (0%Z, false)
          end)
         (fun err => ret (0%Z, false)) in
     let* docs := gets indexedDocuments in
     ret (StatusJson.StatusOk
            {| StatusJson.qdrantConnected := qdrantStatus;
               StatusJson.openaiAvailable := openaiAvailable;
               StatusJson.globalCollection :=
                 {| StatusJson.name := GLOBAL_COLLECTION_NAME;
                    StatusJson.exists_ := collectionExists;
                    StatusJson.vectorCount := documentCount |};
               StatusJson.indexedDocuments := mapValues docs |}))
    (fun error => ret (StatusJson.StatusFailed (message error))).

End RagService.

(** ** [ragRoutes.js]: [POST /rag/chat] *)

Module RagRoutes.

(** The JSON bodies the chat route sends. *)
Inductive ChatBody :=
| Answer (result : RagService.ChatResult)
| Rejected (error : string)
| Fault (error response : string).

Record Response := {
  status : Z;
  json : ChatBody
}.

Definition chatSucceeded (r : RagService.ChatResult) : bool :=
  match r with
  | RagService.ChatOk _ _ _ => true
  | RagService.ChatFailed _ _ _ => false
  end.

(** The handler of [router.post('/rag/chat')]; [body] is the parsed JSON
    object of the request. *)
Definition chat (env : Env) (body : gmap string JsVal) : M Response :=
  tryCatch
    (let query := default VUndefined (body !! "query") in
     if negb (truthy query) then
       ret {| status := 400; json := Rejected "Query is required" |}
     else
       let* result := RagService.generateChatResponse env query in
       if chatSucceeded result
       then ret {| status := 200; json := Answer result |}
       else ret {| status := 500; json := Answer result |})
    (fun error =>
       ret {| status := 500;
              json := Fault (message error)
                "I'm sorry, I encountered an error processing your query. Please try again." |}).

End RagRoutes.

(** ** [uploadMiddleware.js] *)

Module UploadMiddleware.

(** The error an upload ends with: [code] is set by the upload library
    (for instance [LIMIT_FILE_SIZE]), [message] by whoever raised it. *)
Record UploadError := {
  code : option string;
  message : string
}.

(** [{ success: false, error }] with its status. *)
Record Rejection := {
  status : Z;
  error : string
}.

(** [handleUploadErrors(err, req, res, next)]: [None] stands for the call
    of [next()]. *)
Definition handleUploadErrors (err : option UploadError) : option Rejection :=
  match err with
  | Some err =>
      if match code err with
         | Some c => String.eqb c "LIMIT_FILE_SIZE"
         | None => false
         end
      then Some {| status := 400; error := "File size limit exceeded (10MB maximum)" |}
      else if Js.includes (message err) "Unsupported file type"
      then Some {| status := 400; error := message err |}
      else Some {| status := 500; error := "File upload failed: " ++ message err |}
  | None => None
  end.

End UploadMiddleware.

(** ** [ragRoutes.js]: [POST /rag/index] *)

Module IndexRoute.

Definition allowedFileTypes : list string :=
  [".pdf"; ".docx"; ".doc"; ".pptx"; ".ppt"; ".jpg"; ".jpeg"; ".png"; ".txt"].

(** [fileFilter(req, file, cb)]: [Ok true] stands for [cb(null, true)],
    [Throw e] for [cb(e, false)]. *)
Definition fileFilter (env : Env) (originalname : string) : Result bool :=
  let ext := Js.toLowerCase (path_extname env originalname) in
  if existsb (String.eqb ext) allowedFileTypes then Ok true
  else
    Throw (Error "Unsupported file type. Only PDF, DOCX, PPT, images, and text files are allowed.").

(** The JSON bodies the index route sends. *)
Inductive IndexBody :=
| Indexed (result : RagService.IndexResult)
| Refused (error : string).

Record Response := {
  status : Z;
  json : IndexBody
}.

Definition indexSucceeded (r : RagService.IndexResult) : bool :=
  match r with
  | RagService.IndexOk _ _ _ _ => true
  | RagService.IndexFailed _ => false
  end.

(** The last handler of [router.post('/rag/index')]; [file] is
    [req.file]. *)
Definition handler (env : Env) (file : option RagService.UploadedFile) : M Response :=
  tryCatch
    (match file with
     | None => ret {| status := 400; json := Refused "No file uploaded" |}
     | Some f =>
         let* result := RagService.indexDocument env f in
         if indexSucceeded result
         then ret {| status := 200; json := Indexed result |}
         else ret {| status := 500; json := Indexed result |}
     end)
    (fun error => ret {| status := 500; json := Refused (message error) |}).

(** What [upload.single('document')] hands on: an error, which Express
    passes to the error handling middleware [handleUploadErrors], or
    [req.file], with which Express skips that middleware and calls the
    last handler. *)
Inductive Uploaded :=
| UploadFailed (err : UploadMiddleware.UploadError)
| UploadPassed (file : option RagService.UploadedFile).

(** The error [upload.single] hands on when [fileFilter] refuses a file. *)
Definition filterError (e : JsError) : UploadMiddleware.UploadError :=
  {| UploadMiddleware.code := None; UploadMiddleware.message := message e |}.

(** The route behind the upload: [handleUploadErrors], then the handler. *)
Definition route (env : Env) (uploaded : Uploaded) : M Response :=
  match uploaded with
  | UploadFailed err =>
      match UploadMiddleware.handleUploadErrors (Some err) with
      | Some rejection =>
          ret {| status := UploadMiddleware.status rejection;
                 json := Refused (UploadMiddleware.error rejection) |}
      | None => handler env None
      end
  | UploadPassed file => handler env file
  end.

End IndexRoute.

(** ** [statusRoutes.js]: [GET /status] *)

Module StatusRoutes.

(** [{ success: false, error }] of the route's own [catch]. *)
Inductive StatusBody :=
| Report (result : RagService.StatusJson.StatusResult)
| Fault (error : string).

Record Response := {
  status : Z;
  json : StatusBody
}.

Definition handler (env : Env) : M Response :=
  tryCatch
    (let* result := RagService.getSystemStatus env in
     ret {| status := 200; json := Report result |})
    (fun error => ret {| status := 500; json := Fault (message error) |}).

End StatusRoutes.

(** ** Auxiliary notions used by the statements *)

(** What stays in place while a computation only talks to its
    collaborators: the upload directory, the registry and the connection
    flag. *)
Definition sameStore (w w' : World) : Prop :=
  fs w' = fs w
  /\ indexedDocuments w' = indexedDocuments w
  /\ initialized w' = initialized w.

(** [spec c Q E]: run in any world, [c] leaves the store alone and either
    returns a value satisfying [Q] or throws an error satisfying [E]. *)
Definition spec {A} (c : M A) (Q : A -> Prop) (E : JsError -> Prop) : Prop :=
  forall w,
    sameStore w (snd (c w))
    /\ match fst (c w) with
       | Ok a => Q a
       | Throw e => E e
       end.

Definition never : JsError -> Prop := fun _ => False.
Definition anyError : JsError -> Prop := fun _ => True.

(** The buffer the paragraph loop ends with when no chunk is closed on the
    way: the paragraphs joined by blank lines, with no separator while the
    buffer is still empty. *)
Fixpoint joinParagraphsFrom (paragraphs : list string) (currentChunk : string) : string :=
  match paragraphs with
  | [] => currentChunk
  | paragraph :: rest =>
      joinParagraphsFrom rest
        (currentChunk
         ++ (if String.eqb currentChunk EmptyString then "" else newline ++ newline)
         ++ paragraph)
  end.

(** Length of the paragraphs when each is followed by a two character
    separator. *)
Fixpoint separatedLength (paragraphs : list string) : nat :=
  match paragraphs with
  | [] => 0
  | p :: rest => String.length p + 2 + separatedLength rest
  end.

(** The values [randomVector] computes from the draws [start],
    [start + 1], ... of [Math.random()]. *)
Fixpoint rawValues (env : Env) (start n : nat) : list R :=
  match n with
  | O => []
  | S k => (random env start * 2 - 1)%R :: rawValues env (S start) k
  end.

(** The Euclidean norm of a vector of finite values. *)
Definition sumOfSquares (v : list R) : R :=
  fold_left (fun sum val => (sum + val * val)%R) v 0%R.

Definition l2norm (v : list R) : R := sqrt (sumOfSquares v).

(** The contract of the embedding provider: an answer is a vector of 1536
    values. *)
Definition providerContract (env : Env) : Prop :=
  forall n model input v,
    outcome (createEmbedding env n model input) = Ok v -> length v = 1536.

(** A raced request fails when the timer fires first or when it is
    rejected. *)
Definition requestFails {A} (timeoutMs : Z) (pending : Async A) : Prop :=
  (timeoutMs <= latency pending)%Z \/ exists e, outcome pending = Throw e.

(** The process [env] with another embedding provider. *)
Definition withCreateEmbedding (f : nat -> string -> string -> Async (list JsNum))
    (env : Env) : Env :=
  {| OPENAI_API_KEY := OPENAI_API_KEY env;
     random := random env;
     path_extname := path_extname env;
     path_basename := path_basename env;
     pdfParse := pdfParse env;
     extractRawText := extractRawText env;
     createEmbedding := f;
     createChatCompletion := createChatCompletion env;
     qdrant_getCollections := qdrant_getCollections env;
     qdrant_createCollection := qdrant_createCollection env;
     qdrant_upsert := qdrant_upsert env;
     qdrant_search := qdrant_search env;
     qdrant_getCollection := qdrant_getCollection env |}.

Fixpoint noNewline (s : string) : bool :=
  match s with
  | String c s' => negb (Js.isNewline c) && noNewline s'
  | EmptyString => true
  end.

(** An input of at most 8000 characters, none of them a newline. *)
Definition sanitized (input : string) : bool :=
  (Z.of_nat (String.length input) <=? 8000)%Z && noNewline input.

(** ** Sample platform and collaborators *)

Module Sample.

(** The part of [s] behind the last [sep], if [sep] occurs. *)
Fixpoint afterLast (sep : ascii) (s : string) : option string :=
  match s with
  | String c s' =>
      match afterLast sep s' with
      | Some r => Some r
      | None => if Ascii.eqb c sep then Some s' else None
      end
  | EmptyString => None
  end.

Definition basename (p : string) : string :=
  default p (afterLast "/" p).

Definition extname (p : string) : string :=
  match afterLast "." (basename p) with
  | Some ext => "." ++ ext
  | None => ""
  end.

Fixpoint replicate (c : ascii) (n : nat) : string :=
  match n with
  | O => EmptyString
  | S k => String c (replicate c k)
  end.

Definition settled {A} (ms : Z) (r : Result A) : Async A :=
  {| latency := ms; outcome := r |}.

(** A process with a provider key whose provider answers with the zero
    vector, an empty Qdrant instance that accepts every request, and
    parsers that take the file content for its text. *)
Definition env : Env :=
  {| OPENAI_API_KEY := true;
     random := fun _ => (1 / 2)%R;
     path_extname := extname;
     path_basename := basename;
     pdfParse := fun data => Ok data;
     extractRawText := fun data => Ok data;
     createEmbedding := fun _ _ _ => settled 120 (Ok (repeat (Num 0%R) 1536));
     createChatCompletion := fun _ _ _ _ _ => settled 900 (Ok " It is a demo. ");
     qdrant_getCollections := fun _ => settled 20 (Ok []);
     qdrant_createCollection := fun _ _ _ _ => settled 40 (Ok tt);
     qdrant_upsert := fun _ _ _ => settled 60 (Ok tt);
     qdrant_search := fun _ _ _ _ _ => settled 50 (Ok []);
     qdrant_getCollection :=
       fun _ _ => settled 20 (Throw (Error "Not found: Collection `global_documents` doesn't exist!")) |}.

(** The same process when Qdrant refuses every write. *)
Definition envUpsertFails : Env :=
  {| OPENAI_API_KEY := OPENAI_API_KEY env;
     random := random env;
     path_extname := path_extname env;
     path_basename := path_basename env;
     pdfParse := pdfParse env;
     extractRawText := extractRawText env;
     createEmbedding := createEmbedding env;
     createChatCompletion := createChatCompletion env;
     qdrant_getCollections := qdrant_getCollections env;
     qdrant_createCollection := qdrant_createCollection env;
     qdrant_upsert :=
       fun _ _ _ => settled 60 (Throw (Error "connect ECONNREFUSED 127.0.0.1:6333"));
     qdrant_search := qdrant_search env;
     qdrant_getCollection := qdrant_getCollection env |}.

(** The same process when the parsers, the provider and Qdrant all fail. *)
Definition envAllFail : Env :=
  {| OPENAI_API_KEY := OPENAI_API_KEY env;
     random := fun k => (1 / (INR k + 2))%R;
     path_extname := path_extname env;
     path_basename := path_basename env;
     pdfParse := fun _ => Throw (Error "Invalid PDF structure");
     extractRawText := fun _ => Throw (Error "Could not find file in options");
     createEmbedding :=
       fun _ _ _ => settled 300 (Throw (Error "Request failed with status code 429"));
     createChatCompletion :=
       fun _ _ _ _ _ => settled 300 (Throw (Error "Request failed with status code 500"));
     qdrant_getCollections := qdrant_getCollections env;
     qdrant_createCollection := qdrant_createCollection env;
     qdrant_upsert :=
       fun _ _ _ => settled 60 (Throw (Error "connect ECONNREFUSED 127.0.0.1:6333"));
     qdrant_search := fun _ _ _ _ _ => settled 40000 (Ok []);
     qdrant_getCollection := qdrant_getCollection env |}.

(** A process without provider key in which [Math.random()] keeps
    returning [0.5]. *)
Definition envNoKey : Env :=
  {| OPENAI_API_KEY := false;
     random := random env;
     path_extname := path_extname env;
     path_basename := path_basename env;
     pdfParse := pdfParse env;
     extractRawText := extractRawText env;
     createEmbedding := createEmbedding env;
     createChatCompletion := createChatCompletion env;
     qdrant_getCollections := qdrant_getCollections env;
     qdrant_createCollection := qdrant_createCollection env;
     qdrant_upsert := qdrant_upsert env;
     qdrant_search := qdrant_search env;
     qdrant_getCollection := qdrant_getCollection env |}.

Definition upload : RagService.UploadedFile :=
  {| RagService.originalname := "notes.pdf";
     RagService.path := "uploads/document-1.pdf" |}.

(** A freshly started process holding one uploaded file. *)
Definition world : World :=
  {| clock := 0;
     uuids := 0;
     draws := 0;
     requests := 0;
     fs := {[ "uploads/document-1.pdf" := "Qdrant stores vectors." ]};
     initialized := true;
     indexedDocuments := [] |}.

(** Three paragraphs of 600 characters each, and a process holding an
    upload with this content. *)
Definition threeParagraphs : string :=
  replicate "a" 600 ++ newline ++ newline ++ replicate "b" 600
  ++ newline ++ newline ++ replicate "c" 600.


(** Three paragraphs of two characters each. *)
Definition threeShort : string :=
  "ab" ++ newline ++ newline ++ "cd" ++ newline ++ newline ++ "ef".

(** A text whose paragraph break contains a space. *)
Definition blankLineBreak : string := "ab" ++ newline ++ " " ++ newline ++ "cd".

(** Two paragraphs of 1000 characters each. *)
Definition twoParagraphs : string :=
  replicate "a" 1000 ++ newline ++ newline ++ replicate "b" 1000.

(** A chunk of [notes.pdf] with its vector, as [processFile] returns it. *)
Definition embeddedChunk : DocumentProcessor.EmbeddedChunk :=
  {| DocumentProcessor.chunk :=
       {| DocumentProcessor.id := uuidOf 1;
          DocumentProcessor.content := "Qdrant stores vectors.";
          DocumentProcessor.metadata :=
            <["source_file" := VString "notes.pdf"]>
              (<["file_type" := VString "pdf"]> ∅) |};
     DocumentProcessor.embedding := repeat (Num 0%R) 1536;
     DocumentProcessor.embeddingError := None |}.

(** A hit for that chunk. *)
Definition hit : ScoredPoint :=
  {| hit_id := uuidOf 1;
     hit_score := Num (9 / 10)%R;
     hit_payload :=
       Some (<["source_file" := VString "notes.pdf"]>
               (<["original_id" := VString (uuidOf 1)]>
                  (<["content" := VString "Qdrant stores vectors."]> ∅))) |}.

(** The sample process once the global collection exists and holds that
    chunk. *)
Definition envIndexed : Env :=
  {| OPENAI_API_KEY := OPENAI_API_KEY env;
     random := random env;
     path_extname := path_extname env;
     path_basename := path_basename env;
     pdfParse := pdfParse env;
     extractRawText := extractRawText env;
     createEmbedding := createEmbedding env;
     createChatCompletion := createChatCompletion env;
     qdrant_getCollections := fun _ => settled 20 (Ok ["global_documents"]);
     qdrant_createCollection := qdrant_createCollection env;
     qdrant_upsert := qdrant_upsert env;
     qdrant_search := fun _ _ _ _ _ => settled 50 (Ok [hit]);
     qdrant_getCollection := fun _ _ => settled 20 (Ok {| vectors_count := Some 1%Z |}) |}.

(** The same process when Qdrant cannot be reached. *)
Definition envQdrantDown : Env :=
  {| OPENAI_API_KEY := OPENAI_API_KEY env;
     random := random env;
     path_extname := path_extname env;
     path_basename := path_basename env;
     pdfParse := pdfParse env;
     extractRawText := extractRawText env;
     createEmbedding := createEmbedding env;
     createChatCompletion := createChatCompletion env;
     qdrant_getCollections :=
       fun _ => settled 5 (Throw (Error "connect ECONNREFUSED 127.0.0.1:6333"));
     qdrant_createCollection :=
       fun _ _ _ _ => settled 5 (Throw (Error "connect ECONNREFUSED 127.0.0.1:6333"));
     qdrant_upsert :=
       fun _ _ _ => settled 5 (Throw (Error "connect ECONNREFUSED 127.0.0.1:6333"));
     qdrant_search :=
       fun _ _ _ _ _ => settled 5 (Throw (Error "connect ECONNREFUSED 127.0.0.1:6333"));
     qdrant_getCollection :=
       fun _ _ => settled 5 (Throw (Error "connect ECONNREFUSED 127.0.0.1:6333")) |}.

(** What [search] makes of a hit with text, and of one without. *)
Definition searchResult : VectorStore.SearchResult :=
  {| VectorStore.id := VString (uuidOf 1);
     VectorStore.content := VString "Qdrant stores vectors. It is fast.";
     VectorStore.metadata := {[ "source_file" := VString "notes.pdf" ]};
     VectorStore.score := Num (9 / 10)%R |}.

Definition searchResultNoText : VectorStore.SearchResult :=
  {| VectorStore.id := VString (uuidOf 2);
     VectorStore.content := VUndefined;
     VectorStore.metadata := ∅;
     VectorStore.score := Num (8 / 10)%R |}.

End Sample.

(** * Properties *)

(** ** Strings *)

Module JsFacts.

Lemma length_append (s t : string) :
  String.length (s ++ t) = String.length s + String.length t.
Proof. induction s as [|c s IH]; simpl; [reflexivity | now rewrite IH]. Qed.

Lemma length_take (n : nat) (s : string) : String.length (Js.take n s) <= n.
Proof.
  revert s; induction n as [|n IH]; intros [|c s]; simpl; try lia.
  specialize (IH s); lia.
Qed.

Lemma length_trimStart (s : string) :
  String.length (Js.trimStart s) <= String.length s.
Proof.
  induction s as [|c s IH]; simpl; [lia |].
  destruct (Js.isWhiteSpace c); simpl; lia.
Qed.

Lemma length_trimEnd (s : string) :
  String.length (Js.trimEnd s) <= String.length s.
Proof.
  induction s as [|c s IH]; simpl; [lia |].
  destruct (Js.trimEnd s); simpl in *.
  - destruct (Js.isWhiteSpace c); simpl; lia.
  - lia.
Qed.

Lemma length_trim (s : string) :
  String.length (Js.trim s) <= String.length s.
Proof.
  unfold Js.trim.
  pose proof (length_trimEnd (Js.trimStart s)).
  pose proof (length_trimStart s). lia.
Qed.

(** [s.slice(-n)] keeps at most [n] characters when [n] is positive. *)
Lemma length_sliceFrom_neg (s : string) (n : Z) :
  (1 <= n)%Z -> (Z.of_nat (String.length (Js.sliceFrom s (- n))) <= n)%Z.
Proof.
  intros Hn. unfold Js.sliceFrom, Js.slice, Js.clampIndex.
  set (l := Z.of_nat (String.length s)).
  assert (0 <= l)%Z by (subst l; lia).
  destruct (Z.ltb_spec (- n) 0); [| lia].
  destruct (Z.ltb_spec l 0); [lia |].
  match goal with
  | |- context [Js.take ?k ?t] => pose proof (length_take k t)
  end.
  lia.
Qed.

(** A match of [\s*\n] consumes at least one character and no more than
    there are. *)
Lemma blankLineTail_bounds (s : string) (k : nat) :
  Js.blankLineTail s = Some k -> 1 <= k <= String.length s.
Proof.
  revert k; induction s as [|c s IH]; intros k; simpl; [discriminate |].
  destruct (Js.isWhiteSpace c); [| discriminate].
  destruct (Js.blankLineTail s) as [j|].
  - intros [= <-]. specialize (IH j eq_refl). lia.
  - destruct (Js.isNewline c); [| discriminate].
    intros [= <-]. lia.
Qed.

Lemma separatedLength_consHead (c : ascii) (pieces : list string) :
  pieces <> [] ->
  separatedLength (Js.consHead c pieces) = S (separatedLength pieces).
Proof. destruct pieces as [|p ps]; [congruence | reflexivity]. Qed.

Lemma splitBlankLinesFrom_nonempty (s : string) (skip : nat) :
  Js.splitBlankLinesFrom skip s <> [].
Proof.
  revert skip; induction s as [|c s IH]; intros skip; simpl; [congruence |].
  destruct skip as [|k]; [| apply IH].
  destruct (if Js.isNewline c then Js.blankLineTail s else None); [congruence |].
  specialize (IH 0). destruct (Js.splitBlankLinesFrom 0 s); simpl; congruence.
Qed.

(** Every separator of [split(/\n\s*\n/)] has two characters or more, so
    the pieces, each counted with a blank line behind it, are no longer
    than the text and one blank line. *)
Lemma separatedLength_split (s : string) (skip : nat) :
  skip <= String.length s ->
  separatedLength (Js.splitBlankLinesFrom skip s) + skip <= String.length s + 2.
Proof.
  revert skip; induction s as [|c s IH]; intros skip Hskip; simpl in *.
  - lia.
  - destruct skip as [|k].
    + destruct (if Js.isNewline c then Js.blankLineTail s else None) as [k|] eqn:E.
      * destruct (Js.isNewline c); [| discriminate].
        apply blankLineTail_bounds in E.
        specialize (IH k ltac:(lia)). simpl. lia.
      * rewrite separatedLength_consHead by apply splitBlankLinesFrom_nonempty.
        specialize (IH 0 ltac:(lia)). lia.
    + specialize (IH k ltac:(lia)). lia.
Qed.

(** A text without newline is its only paragraph. *)
Lemma splitBlankLinesFrom_no_newline (s : string) :
  (forall c, In c (list_ascii_of_string s) -> Js.isNewline c = false) ->
  Js.splitBlankLinesFrom 0 s = [s].
Proof.
  induction s as [|c s IH]; intros H; simpl; [reflexivity |].
  rewrite (H c) by (simpl; auto).
  rewrite IH by (intros d Hd; apply H; simpl; auto).
  reflexivity.
Qed.

End JsFacts.

(** ** Rules for computations *)

Module Rules.

Lemma sameStore_refl (w : World) : sameStore w w.
Proof. repeat split. Qed.

Lemma sameStore_trans (w1 w2 w3 : World) :
  sameStore w1 w2 -> sameStore w2 w3 -> sameStore w1 w3.
Proof.
  intros (a & b & c) (a' & b' & c'); repeat split; congruence.
Qed.

Lemma spec_ret {A} (a : A) (Q : A -> Prop) (E : JsError -> Prop) :
  Q a -> spec (ret a) Q E.
Proof. intros H w; simpl; split; [apply sameStore_refl | exact H]. Qed.

Lemma spec_throw {A} (e : JsError) (Q : A -> Prop) (E : JsError -> Prop) :
  E e -> spec (throw e) Q E.
Proof. intros H w; simpl; split; [apply sameStore_refl | exact H]. Qed.

Lemma spec_bind {A B} (c : M A) (k : A -> M B) (P : A -> Prop) (Q : B -> Prop)
    (E : JsError -> Prop) :
  spec c P E -> (forall a, P a -> spec (k a) Q E) -> spec (bind c k) Q E.
Proof.
  intros Hc Hk w. unfold bind.
  destruct (Hc w) as [Hs Hr]. destruct (c w) as [[a|e] w1]; simpl in *.
  - destruct (Hk a Hr w1) as [Hs' Hr'].
    split; [eapply sameStore_trans; eassumption | exact Hr'].
  - split; assumption.
Qed.

Lemma spec_tryCatch {A} (body : M A) (handler : JsError -> M A) (Q : A -> Prop)
    (E E' : JsError -> Prop) :
  spec body Q E -> (forall e, E e -> spec (handler e) Q E') ->
  spec (tryCatch body handler) Q E'.
Proof.
  intros Hb Hh w. unfold tryCatch.
  destruct (Hb w) as [Hs Hr]. destruct (body w) as [[a|e] w1]; simpl in *.
  - split; assumption.
  - destruct (Hh e Hr w1) as [Hs' Hr'].
    split; [eapply sameStore_trans; eassumption | exact Hr'].
Qed.

Lemma spec_weaken {A} (c : M A) (Q Q' : A -> Prop) (E E' : JsError -> Prop) :
  spec c Q E -> (forall a, Q a -> Q' a) -> (forall e, E e -> E' e) ->
  spec c Q' E'.
Proof.
  intros Hc HQ HE w. destruct (Hc w) as [Hs Hr]. split; [exact Hs |].
  destruct (fst (c w)); auto.
Qed.

Lemma spec_never {A} (c : M A) (Q : A -> Prop) (E : JsError -> Prop) :
  spec c Q never -> spec c Q E.
Proof. intros Hc. apply (spec_weaken c Q Q never E Hc); [auto | intros e []]. Qed.

(** What a [spec] with no exceptional outcome gives at a world. *)
Lemma spec_run {A} (c : M A) (Q : A -> Prop) (w : World) :
  spec c Q never ->
  exists a w', c w = (Ok a, w') /\ Q a /\ sameStore w w'.
Proof.
  intros Hc. destruct (Hc w) as [Hs Hr].
  destruct (c w) as [[a|e] w1]; simpl in *; [| contradiction].
  exists a, w1; auto.
Qed.

Lemma spec_gets {A} (f : World -> A) (E : JsError -> Prop) :
  spec (gets f) (fun _ => True) E.
Proof. intros w; simpl; split; [apply sameStore_refl | exact I]. Qed.

Lemma spec_await {A} (pending : Async A) (Q : A -> Prop) :
  (forall a, outcome pending = Ok a -> Q a) ->
  spec (await pending) Q anyError.
Proof.
  intros H w; unfold await; simpl; split; [repeat split |].
  destruct (outcome pending); [auto | exact I].
Qed.

Lemma spec_race {A} (pending : Async A) (timeoutMs : Z) (msg : string)
    (Q : A -> Prop) :
  (forall a, outcome pending = Ok a -> Q a) ->
  spec (race pending timeoutMs msg) Q anyError.
Proof.
  intros H w; unfold race.
  destruct (latency pending <? timeoutMs)%Z; simpl; (split; [repeat split |]).
  - destruct (outcome pending); [auto | exact I].
  - exact I.
Qed.

Lemma spec_sleep (ms : Z) (E : JsError -> Prop) :
  spec (sleep ms) (fun _ => True) E.
Proof. intros w; simpl; split; [repeat split | exact I]. Qed.

Lemma spec_nextRequest (E : JsError -> Prop) :
  spec nextRequest (fun _ => True) E.
Proof. intros w; simpl; split; [repeat split | exact I]. Qed.

Lemma spec_uuidv4 (E : JsError -> Prop) :
  spec uuidv4 (fun _ => True) E.
Proof. intros w; simpl; split; [repeat split | exact I]. Qed.

Lemma spec_Math_random (env : Env) (E : JsError -> Prop) :
  spec (Math_random env) (fun _ => True) E.
Proof. intros w; simpl; split; [repeat split | exact I]. Qed.

Lemma spec_readFileAsync (filePath : string) :
  spec (readFileAsync filePath) (fun _ => True) anyError.
Proof.
  intros w; unfold readFileAsync.
  destruct (fs w !! filePath); simpl; (split; [repeat split | exact I]).
Qed.

Lemma spec_mapM {A B} (f : A -> M B) (xs : list A) (P : A -> B -> Prop)
    (E : JsError -> Prop) :
  (forall x, spec (f x) (P x) E) ->
  spec (mapM f xs) (fun ys => Forall2 P xs ys) E.
Proof.
  intros Hf. induction xs as [|x xs IH]; simpl.
  - apply spec_ret. constructor.
  - eapply spec_bind; [apply Hf |]. intros y Hy.
    eapply spec_bind; [apply IH |]. intros ys Hys.
    apply spec_ret. constructor; assumption.
Qed.

End Rules.

(** ** The chunker *)

Module Chunker.

Import DocumentProcessor.

Lemma len_append (s t : string) : len (s ++ t) = (len s + len t)%Z.
Proof. unfold len. rewrite JsFacts.length_append. lia. Qed.

Lemma len_nonneg (s : string) : (0 <= len s)%Z.
Proof. unfold len. lia. Qed.

Lemma len_trim (s : string) : (len (Js.trim s) <= len s)%Z.
Proof. unfold len. pose proof (JsFacts.length_trim s). lia. Qed.

Lemma eqb_empty_len (s : string) :
  String.eqb s EmptyString = false -> (0 < len s)%Z.
Proof. destruct s; simpl; [discriminate | unfold len; simpl; lia]. Qed.

Lemma pushChunk_run (chunks : list Chunk) (cur : string) (meta : gmap string JsVal)
    (w : World) :
  pushChunk chunks cur meta w
  = (Ok (chunks ++ [ {| id := uuidOf (uuids w); content := Js.trim cur;
                        metadata := meta |} ])%list,
     setUuids (S (uuids w)) w).
Proof. reflexivity. Qed.

(** The loop invariant behind the bound: the buffer and every chunk
    closed so far stay within [chunkSize + overlap + 1]. *)
Lemma chunkParagraphs_bound (paragraphs : list string) (chunkSize overlap : Z)
    (meta : gmap string JsVal) :
  (1 <= overlap)%Z ->
  Forall (fun p => (len p <= chunkSize)%Z) paragraphs ->
  forall chunks cur w,
    (len cur <= chunkSize + overlap + 1)%Z ->
    Forall (fun c => (len (content c) <= chunkSize + overlap + 1)%Z) chunks ->
    exists chunks' cur' w',
      chunkParagraphs paragraphs chunkSize overlap meta chunks cur w
      = (Ok (chunks', cur'), w')
      /\ Forall (fun c => (len (content c) <= chunkSize + overlap + 1)%Z) chunks'
      /\ (len cur' <= chunkSize + overlap + 1)%Z.
Proof.
  intros Hov Hps. induction Hps as [|p ps Hp Hps IH]; intros chunks cur w Hcur Hchunks.
  - exists chunks, cur, w. simpl. auto.
  - simpl.
    destruct ((len cur + len p >? chunkSize) && (len cur >? 0))%Z eqn:Hflush.
    + unfold bind. rewrite pushChunk_run.
      apply IH.
      * rewrite !len_append. change (len " ") with 1%Z.
        destruct (Z.gtb_spec (len cur) overlap).
        -- pose proof (JsFacts.length_sliceFrom_neg cur overlap Hov).
           unfold len at 1. lia.
        -- lia.
      * apply Forall_app; split; [exact Hchunks |].
        constructor; [| constructor]. simpl.
        pose proof (len_trim cur). lia.
    + apply IH; [| exact Hchunks].
      rewrite !len_append.
      destruct (String.eqb cur EmptyString) eqn:Hempty.
      * apply String.eqb_eq in Hempty. subst cur.
        change (len "") with 0%Z. lia.
      * apply eqb_empty_len in Hempty.
        change (len (newline ++ newline)) with 2%Z.
        apply andb_false_iff in Hflush.
        destruct Hflush as [Hsum | Hzero].
        -- destruct (Z.gtb_spec (len cur + len p) chunkSize); [discriminate | lia].
        -- destruct (Z.gtb_spec (len cur) 0); [discriminate | lia].
Qed.

(** The paragraph loop closes no chunk while buffer and remaining
    paragraphs, separators included, fit into [chunkSize]. *)
Lemma chunkParagraphs_no_flush (paragraphs : list string) (chunkSize overlap : Z)
    (meta : gmap string JsVal) :
  forall chunks cur w,
    (len cur + Z.of_nat (separatedLength paragraphs) <= chunkSize + 1)%Z ->
    chunkParagraphs paragraphs chunkSize overlap meta chunks cur w
    = (Ok (chunks, joinParagraphsFrom paragraphs cur), w).
Proof.
  induction paragraphs as [|p ps IH]; intros chunks cur w Hfit; simpl in *.
  - reflexivity.
  - assert (Hno : (len cur + len p >? chunkSize)%Z = false).
    { destruct (Z.gtb_spec (len cur + len p) chunkSize); [| reflexivity].
      unfold len in *. lia. }
    rewrite Hno. simpl. apply IH.
    rewrite !len_append.
    destruct (String.eqb cur EmptyString).
    + change (len "") with 0%Z. unfold len in *. lia.
    + change (len (newline ++ newline)) with 2%Z. unfold len in *. lia.
Qed.

(** C3, as amended. For every text, every [chunkSize] and every
    [overlap >= 1]: unless a paragraph of the text is longer than
    [chunkSize], [splitTextIntoChunks] returns, and none of its chunks has
    a content longer than [chunkSize + overlap + 1]; the one extra
    character is the space put between the overlap and the next
    paragraph. *)
Theorem splitTextIntoChunks_bound (text : string) (chunkSize overlap : Z)
    (meta : gmap string JsVal) (w : World) :
  (1 <= overlap)%Z ->
  (forall p, In p (Js.splitBlankLines text) -> (len p <= chunkSize)%Z) ->
  exists chunks w',
    splitTextIntoChunks text chunkSize overlap meta w = (Ok chunks, w')
    /\ forall c, In c chunks -> (len (content c) <= chunkSize + overlap + 1)%Z.
Proof.
  intros Hov Hps. unfold splitTextIntoChunks.
  destruct (String.eqb text EmptyString).
  - exists [], w. split; [reflexivity | intros c []].
  - assert (Hsize : (0 <= chunkSize)%Z).
    { pose proof (JsFacts.splitBlankLinesFrom_nonempty text 0) as Hne.
      unfold Js.splitBlankLines in Hps.
      destruct (Js.splitBlankLinesFrom 0 text) as [|p ps]; [congruence |].
      specialize (Hps p (or_introl eq_refl)). pose proof (len_nonneg p). lia. }
    destruct (chunkParagraphs_bound (Js.splitBlankLines text) chunkSize overlap meta
                Hov ltac:(apply List.Forall_forall; exact Hps) [] EmptyString w)
      as (chunks & cur & w1 & Hrun & Hchunks & Hcur).
    { change (len "") with 0%Z. lia. }
    { constructor. }
    unfold bind. rewrite Hrun.
    destruct (len (Js.trim cur) >? 0)%Z.
    + rewrite pushChunk_run. eexists _, _. split; [reflexivity |].
      intros c Hc. apply in_app_or in Hc. destruct Hc as [Hc | [<- | []]].
      * rewrite List.Forall_forall in Hchunks. auto.
      * simpl. pose proof (len_trim cur). lia.
    + exists chunks, w1. split; [reflexivity |].
      rewrite List.Forall_forall in Hchunks. auto.
Qed.

(** The bound at two paragraphs of [chunkSize] characters, with the
    default sizes. *)
Lemma splitTextIntoChunks_bound_witness :
  exists chunks w',
    splitTextIntoChunks Sample.twoParagraphs 1000 200 ∅ Sample.world = (Ok chunks, w')
    /\ forall c, In c chunks -> (len (content c) <= 1000 + 200 + 1)%Z.
Proof.
  apply (splitTextIntoChunks_bound Sample.twoParagraphs 1000 200 ∅ Sample.world).
  - lia.
  - intros p Hp. vm_compute in Hp.
    destruct Hp as [<- | [<- | []]]; vm_compute; discriminate.
Defined.

(** C3 as it is stated fails: with the default sizes, two paragraphs of
1000 characters give a second chunk of 1201 characters (200 of overlap,
a space, and the paragraph), although no paragraph is longer than
[chunkSize]. With [overlap = 0] the whole buffer is carried over
([slice(-0)] is [slice(0)]), so three paragraphs of two characters and
[chunkSize = 3] end in a chunk of eight characters. *)
Lemma splitTextIntoChunks_exceeds_chunkSize_plus_overlap :
  ((forall p, In p (Js.splitBlankLines Sample.twoParagraphs) -> (len p <= 1000)%Z)
   /\ exists chunks w' c,
        splitTextIntoChunks Sample.twoParagraphs 1000 200 ∅ Sample.world
        = (Ok chunks, w')
        /\ In c chunks
        /\ (1000 + 200 < len (content c))%Z)
  /\ ((forall p, In p (Js.splitBlankLines Sample.threeShort) -> (len p <= 3)%Z)
      /\ exists chunks w' c,
           splitTextIntoChunks Sample.threeShort 3 0 ∅ Sample.world = (Ok chunks, w')
           /\ In c chunks
           /\ content c = "ab cd ef").
Proof.
  split; split.
  - intros p Hp. vm_compute in Hp.
    destruct Hp as [<- | [<- | []]]; vm_compute; discriminate.
  - destruct (splitTextIntoChunks Sample.twoParagraphs 1000 200 ∅ Sample.world)
      as [r w'] eqn:Hrun.
    vm_compute in Hrun. injection Hrun as <- <-.
    eexists _, _, _. split; [reflexivity |].
    split; [right; left; reflexivity |].
    vm_compute. reflexivity.
  - intros p Hp. vm_compute in Hp.
    destruct Hp as [<- | [<- | [<- | []]]]; vm_compute; discriminate.
  - destruct (splitTextIntoChunks Sample.threeShort 3 0 ∅ Sample.world)
      as [r w'] eqn:Hrun.
    vm_compute in Hrun. injection Hrun as <- <-.
    eexists _, _, _. split; [reflexivity |].
    split; [right; right; left; reflexivity |].
    reflexivity.
Qed.

(** C4, as amended. [splitTextIntoChunks] returns no chunk for the empty
    string. For a non-empty text shorter than [chunkSize] it returns, and
    the paragraph loop closes no chunk: the result holds the trimmed
    buffer, which is the text with every paragraph break replaced by one
    blank line, and holds nothing when that buffer is white space only.
    For a text without paragraph break the buffer is the text itself, so
    the one chunk is the trimmed text. *)
Theorem splitTextIntoChunks_short (text : string) (chunkSize overlap : Z)
    (meta : gmap string JsVal) (w : World) :
  splitTextIntoChunks EmptyString chunkSize overlap meta w = (Ok [], w)
  /\ (text <> EmptyString ->
      (len text < chunkSize)%Z ->
      let joined := joinParagraphsFrom (Js.splitBlankLines text) EmptyString in
      exists chunks w',
        splitTextIntoChunks text chunkSize overlap meta w = (Ok chunks, w')
        /\ map content chunks
           = (if (0 <? String.length (Js.trim joined))%nat
              then [Js.trim joined] else [])
        /\ (Js.splitBlankLines text = [text] -> joined = text)).
Proof.
  split; [reflexivity |].
  intros Hne Hshort joined. unfold splitTextIntoChunks.
  destruct (String.eqb_spec text EmptyString) as [-> | _]; [congruence |].
  unfold bind. rewrite chunkParagraphs_no_flush.
  - fold joined.
    assert (Hlen : (len (Js.trim joined) >? 0)%Z
                   = (0 <? String.length (Js.trim joined))%nat).
    { unfold len. destruct (Nat.ltb_spec 0 (String.length (Js.trim joined)));
        destruct (Z.gtb_spec (Z.of_nat (String.length (Js.trim joined))) 0);
        try reflexivity; lia. }
    rewrite Hlen.
    destruct (0 <? String.length (Js.trim joined))%nat.
    + rewrite pushChunk_run. eexists _, _. split; [reflexivity |].
      split; [reflexivity |].
      intros Hone. subst joined. rewrite Hone. reflexivity.
    + exists [], w. split; [reflexivity |]. split; [reflexivity |].
      intros Hone. subst joined. rewrite Hone. reflexivity.
  - pose proof (JsFacts.separatedLength_split text 0 ltac:(lia)) as Hsplit.
    unfold Js.splitBlankLines. change (len "") with 0%Z.
    unfold len in Hshort. lia.
Qed.

(** The statement at a one line text. *)
Lemma splitTextIntoChunks_short_witness :
  exists chunks w',
    splitTextIntoChunks "  Qdrant stores vectors. " 1000 200 ∅ Sample.world
    = (Ok chunks, w')
    /\ map content chunks = ["Qdrant stores vectors."].
Proof.
  destruct (splitTextIntoChunks_short "  Qdrant stores vectors. " 1000 200 ∅ Sample.world)
    as [_ H].
  destruct (H ltac:(discriminate) ltac:(reflexivity)) as (chunks & w' & Hrun & Hmap & _).
  exists chunks, w'. split; [exact Hrun | exact Hmap].
Defined.

(** C4 as it is stated fails twice: a text of three spaces is not empty
    and shorter than [chunkSize], yet no chunk is returned; and on a text
    whose paragraph break contains a space the chunk is not the trimmed
    text, since the break comes back as a plain blank line. *)
Lemma splitTextIntoChunks_short_not_trimmed_input :
  (exists w',
     splitTextIntoChunks "   " 1000 200 ∅ Sample.world = (Ok [], w'))
  /\ (exists c w',
        splitTextIntoChunks Sample.blankLineBreak 1000 200 ∅ Sample.world = (Ok [c], w')
        /\ content c <> Js.trim Sample.blankLineBreak).
Proof.
  split.
  - eexists. vm_compute. reflexivity.
  - eexists _, _. split; [vm_compute; reflexivity |].
    vm_compute. discriminate.
Qed.

End Chunker.

(** ** Embeddings *)

Module Embedding.

Import DocumentProcessor.

Lemma length_rawValues (env : Env) (start n : nat) :
  length (rawValues env start n) = n.
Proof. revert start; induction n as [|n IH]; intros start; simpl; auto. Qed.

Lemma randomVector_run (env : Env) (n : nat) (w : World) :
  randomVector env n w
  = (Ok (rawValues env (draws w) n), setDraws (draws w + n) w).
Proof.
  revert w; induction n as [|n IH]; intros w.
  - destruct w; unfold setDraws; simpl. rewrite Nat.add_0_r. reflexivity.
  - cbn [randomVector rawValues]. unfold bind at 1.
    cbn [Math_random]. unfold bind at 1. rewrite IH.
    unfold ret, setDraws; cbn. do 2 f_equal. f_equal. lia.
Qed.

Lemma generateMockEmbedding_run (env : Env) (n : nat) (w : World) :
  generateMockEmbedding env n w
  = (Ok (map (fun val => jsDiv val (l2norm (rawValues env (draws w) n)))
             (rawValues env (draws w) n)),
     setDraws (draws w + n) w).
Proof.
  unfold generateMockEmbedding, bind. rewrite randomVector_run. reflexivity.
Qed.

Lemma spec_generateMockEmbedding (env : Env) (n : nat) (E : JsError -> Prop) :
  spec (generateMockEmbedding env n) (fun v => length v = n) E.
Proof.
  intros w. rewrite generateMockEmbedding_run. cbn [fst snd]. split.
  - repeat split.
  - rewrite length_map. apply length_rawValues.
Qed.














Lemma spec_trimOf (text : JsVal) :
  spec (trimOf text) (fun _ => True) anyError.
Proof.
  destruct text; simpl;
    first [apply Rules.spec_ret; exact I | apply Rules.spec_throw; exact I].
Qed.

(** Whatever the provider does, the retry loop ends with a value and
    throws nothing; the value is an answer of the provider or a vector of
    1536 values. *)
Lemma spec_embeddingAttempts (env : Env) (text : JsVal) (retries timeoutMs : Z)
    (remaining : nat) (Q : list JsNum -> Prop) :
  (forall v, length v = 1536 -> Q v) ->
  (forall n model input v,
      outcome (createEmbedding env n model input) = Ok v -> Q v) ->
  forall attempt,
    spec (embeddingAttempts env text retries timeoutMs remaining attempt) Q never.
Proof.
  intros Hmock Hanswer.
  assert (Hm : forall E, spec (generateMockEmbedding env 1536) Q E).
  { intros E. eapply Rules.spec_weaken;
      [apply (spec_generateMockEmbedding env 1536 E) | exact Hmock | auto]. }
  induction remaining as [|remaining IH]; intros attempt;
    cbn [embeddingAttempts].
  - apply Hm.
  - apply Rules.spec_tryCatch with (E := anyError).
    + destruct (negb (OPENAI_API_KEY env)).
      * apply Hm.
      * eapply Rules.spec_bind; [apply spec_trimOf |]. intros trimmed _.
        eapply Rules.spec_bind; [apply Rules.spec_nextRequest |]. intros n _.
        apply Rules.spec_race. intros v Hv. eapply Hanswer; exact Hv.
    + intros error _. destruct (attempt =? retries)%Z.
      * apply Hm.
      * eapply Rules.spec_bind; [apply Rules.spec_sleep |]. intros _ _. apply IH.
Qed.

Lemma spec_generateEmbedding_any (env : Env) (text : JsVal) (retries timeoutMs : Z) :
  spec (generateEmbedding env text retries timeoutMs) (fun _ => True) never.
Proof. apply spec_embeddingAttempts; auto. Qed.

(** The value is a vector of 1536 values or an answer of the provider. *)
Lemma spec_generateEmbedding_answer (env : Env) (text : JsVal) (retries timeoutMs : Z) :
  spec (generateEmbedding env text retries timeoutMs)
       (fun v => length v = 1536
                 \/ exists n model input,
                      outcome (createEmbedding env n model input) = Ok v)
       never.
Proof.
  apply spec_embeddingAttempts.
  - intros v Hv. left. exact Hv.
  - intros n model input v Hv. right. exists n, model, input. exact Hv.
Qed.






End Embedding.

(** ** The vector store *)

Module VectorStoreFacts.

Import VectorStore.

Ltac conjuncts := repeat match goal with |- _ /\ _ => split end.

(** Converting the hits changes nothing in the world, and fails as soon
    as one hit carries no payload. *)
Lemma mapM_toSearchResult (hits : list ScoredPoint) (w : World) :
  exists r,
    mapM toSearchResult hits w = (r, w)
    /\ (Exists (fun h => hit_payload h = None) hits -> exists e, r = Throw e).
Proof.
  induction hits as [|h hits IH]; cbn [mapM].
  - exists (Ok []). split; [reflexivity |]. intros H; inversion H.
  - destruct IH as (r & Hr & Hmissing).
    unfold bind at 1. unfold toSearchResult at 1.
    destruct (hit_payload h) as [p|] eqn:Hp.
    + cbn [ret]. unfold bind at 1. rewrite Hr.
      destruct r as [rs|e].
      * eexists. split; [reflexivity |].
        intros H; inversion H as [? ? Hh | ? ? Hrest]; subst;
          [congruence | destruct (Hmissing Hrest); discriminate].
      * eexists. split; [reflexivity |]. eauto.
    + eexists. split; [reflexivity |]. eauto.
Qed.

(** C6. For every query vector, [search] returns a list and throws
    nothing. The list is empty when the collection is not among those
    Qdrant reports, when listing the collections fails, when the lookup
    is rejected or loses against the timer, and when a hit comes back
    without payload. *)
Theorem search_degrades_to_empty (env : Env) (collectionName : string)
    (queryEmbedding : list JsNum) (limit : Z) (minScore : JsNum) (timeoutMs : Z)
    (w : World) :
  let listing := qdrant_getCollections env (requests w) in
  let lookup :=
    qdrant_search env (S (requests w)) collectionName queryEmbedding limit minScore in
  exists results w',
    search env collectionName queryEmbedding limit minScore timeoutMs w
    = (Ok results, w')
    /\ (forall collections,
           outcome listing = Ok collections ->
           existsb (String.eqb collectionName) collections = false ->
           results = [])
    /\ ((exists e, outcome listing = Throw e) -> results = [])
    /\ (requestFails timeoutMs lookup -> results = [])
    /\ (forall hits,
           outcome lookup = Ok hits ->
           Exists (fun h => hit_payload h = None) hits ->
           results = []).
Proof.
  intros listing lookup.
  unfold search, tryCatch. unfold bind at 1. cbn [nextRequest].
  unfold bind at 1. unfold await at 1. cbn [fst snd]. fold listing.
  destruct (outcome listing) as [collections|e0] eqn:Hlisting.
  - destruct (existsb (String.eqb collectionName) collections) eqn:Hexists; cbn [negb].
    + unfold bind at 1. cbn [nextRequest]. unfold bind at 1.
      cbn [requests setRequests setClock]. fold lookup.
      unfold race.
      destruct (Z.ltb_spec (latency lookup) timeoutMs) as [Hlt | Hge].
      * destruct (outcome lookup) as [hits|e1] eqn:Hlookup.
        -- match goal with
           | |- context [mapM toSearchResult hits ?w1] =>
               destruct (mapM_toSearchResult hits w1) as (r & -> & Hmissing)
           end.
           destruct r as [rs|e2].
           ++ eexists _, _. split; [reflexivity |].
              conjuncts.
              ** intros cs [= <-]. congruence.
              ** intros [e He]. discriminate.
              ** intros [Hlate | [e He]]; [lia | congruence].
              ** intros hits' [= <-] Hno. destruct (Hmissing Hno). discriminate.
           ++ eexists _, _. split; [reflexivity |]. conjuncts; intros; subst; try discriminate; auto.
        -- eexists _, _. split; [reflexivity |]. conjuncts; intros; subst; try discriminate; auto.
      * eexists _, _. split; [reflexivity |]. conjuncts; intros; subst; try discriminate; auto.
    + eexists _, _. split; [reflexivity |]. conjuncts; intros; subst; try discriminate; auto.
  - eexists _, _. split; [reflexivity |]. conjuncts; intros; subst; try discriminate; auto.
Qed.

Lemma spec_createCollection (env : Env) (collectionName : string) :
  spec (createCollection env collectionName) (fun _ => True) never.
Proof.
  unfold createCollection. apply Rules.spec_tryCatch with (E := anyError).
  - eapply Rules.spec_bind; [apply Rules.spec_nextRequest |]. intros n _.
    eapply Rules.spec_bind; [apply Rules.spec_await with (Q := fun _ => True); auto |].
    intros collections _.
    destruct (negb (existsb (String.eqb collectionName) collections)).
    + eapply Rules.spec_bind; [apply Rules.spec_nextRequest |]. intros n' _.
      eapply Rules.spec_bind; [apply Rules.spec_await with (Q := fun _ => True); auto |].
      intros _ _. apply Rules.spec_ret. exact I.
    + apply Rules.spec_ret. exact I.
  - intros error _. apply Rules.spec_ret. exact I.
Qed.

Lemma spec_generatePointId (pointId : string) :
  spec (generatePointId pointId) (fun _ => True) never.
Proof.
  unfold generatePointId. apply Rules.spec_tryCatch with (E := anyError).
  - destruct (matchesClasses uuidPattern pointId).
    + apply Rules.spec_ret. exact I.
    + apply Rules.spec_uuidv4.
  - intros e _. apply Rules.spec_uuidv4.
Qed.

Lemma spec_toPoint (doc : DocumentProcessor.EmbeddedChunk) :
  spec (toPoint doc) (fun _ => True) never.
Proof.
  unfold toPoint.
  eapply Rules.spec_bind; [apply spec_generatePointId |]. intros qdrantId _.
  apply Rules.spec_ret. exact I.
Qed.

Lemma spec_upsertBatches (env : Env) (collectionName : string) (points : list Point)
    (fuel : nat) :
  forall i, spec (upsertBatches env collectionName points fuel i)
                 (fun _ => True) anyError.
Proof.
  induction fuel as [|fuel IH]; intros i; cbn [upsertBatches];
    destruct (i <? Z.of_nat (length points))%Z;
    try (apply Rules.spec_ret; exact I).
  eapply Rules.spec_bind; [apply Rules.spec_nextRequest |]. intros n _.
  eapply Rules.spec_bind; [apply Rules.spec_await with (Q := fun _ => True); auto |].
  intros _ _. apply IH.
Qed.

(** [addDocuments] reports every failure in its result and throws
    nothing. *)
Lemma spec_addDocuments (env : Env) (collectionName : string)
    (documents : list DocumentProcessor.EmbeddedChunk) :
  spec (addDocuments env collectionName documents) (fun _ => True) never.
Proof.
  unfold addDocuments. apply Rules.spec_tryCatch with (E := anyError).
  - eapply Rules.spec_bind; [apply Rules.spec_never, spec_createCollection |].
    intros [created existed | error] _.
    + eapply Rules.spec_bind.
      { apply Rules.spec_never.
        apply (Rules.spec_mapM toPoint documents (fun _ _ => True)).
        intros doc. apply spec_toPoint. }
      intros points _.
      eapply Rules.spec_bind; [apply spec_upsertBatches |]. intros _ _.
      apply Rules.spec_ret. exact I.
    + apply Rules.spec_throw. exact I.
  - intros error _. apply Rules.spec_ret. exact I.
Qed.

End VectorStoreFacts.

(** ** [processFile] *)

Module ProcessFileFacts.

Import DocumentProcessor.

(** Every fault of the extraction ends in the placeholder text. *)
Lemma spec_extractTextFromFile (env : Env) (filePath fileType : string) :
  spec (extractTextFromFile env filePath fileType) (fun _ => True) never.
Proof.
  unfold extractTextFromFile. apply Rules.spec_tryCatch with (E := anyError).
  - repeat match goal with
           | |- spec (if ?b then _ else _) _ _ => destruct b
           end;
      try (apply Rules.spec_ret; exact I);
      (eapply Rules.spec_bind; [apply Rules.spec_readFileAsync |]; intros buffer _;
       match goal with
       | |- spec (match ?r with _ => _ end) _ _ => destruct r
       end; [apply Rules.spec_ret | apply Rules.spec_throw]; exact I).
  - intros error _. apply Rules.spec_ret. exact I.
Qed.

Lemma spec_pushChunk (chunks : list Chunk) (cur : string) (meta : gmap string JsVal) :
  spec (pushChunk chunks cur meta) (fun _ => True) never.
Proof.
  unfold pushChunk. eapply Rules.spec_bind; [apply Rules.spec_uuidv4 |].
  intros fresh _. apply Rules.spec_ret. exact I.
Qed.

Lemma spec_chunkParagraphs (paragraphs : list string) (chunkSize overlap : Z)
    (meta : gmap string JsVal) :
  forall chunks cur,
    spec (chunkParagraphs paragraphs chunkSize overlap meta chunks cur)
         (fun _ => True) never.
Proof.
  induction paragraphs as [|p ps IH]; intros chunks cur; cbn [chunkParagraphs].
  - apply Rules.spec_ret. exact I.
  - destruct ((len cur + len p >? chunkSize) && (len cur >? 0))%Z.
    + eapply Rules.spec_bind; [apply spec_pushChunk |]. intros chunks' _. apply IH.
    + apply IH.
Qed.

Lemma spec_splitTextIntoChunks (text : string) (chunkSize overlap : Z)
    (meta : gmap string JsVal) :
  spec (splitTextIntoChunks text chunkSize overlap meta) (fun _ => True) never.
Proof.
  unfold splitTextIntoChunks. destruct (String.eqb text EmptyString).
  - apply Rules.spec_ret. exact I.
  - eapply Rules.spec_bind; [apply spec_chunkParagraphs |].
    intros [chunks cur] _.
    destruct (len (Js.trim cur) >? 0)%Z.
    + apply spec_pushChunk.
    + apply Rules.spec_ret. exact I.
Qed.

(** The callback keeps the chunk it was given. *)
Lemma spec_embedChunk (env : Env) (c : Chunk) :
  spec (embedChunk env c) (fun d => chunk d = c) never.
Proof.
  unfold embedChunk. apply Rules.spec_tryCatch with (E := never).
  - eapply Rules.spec_bind; [apply Embedding.spec_generateEmbedding_any |].
    intros e _. apply Rules.spec_ret. reflexivity.
  - intros error [].
Qed.

Lemma Forall2_chunk (batch : list Chunk) (results : list EmbeddedChunk) :
  Forall2 (fun c d => chunk d = c) batch results -> map chunk results = batch.
Proof. induction 1; cbn [map]; congruence. Qed.

(** A batch and what lies behind it make up what lay behind the start
    of the batch. *)
Lemma arraySlice_batch {A} (xs : list A) (i : Z) :
  (0 <= i < Z.of_nat (length xs))%Z ->
  (Js.arraySlice xs i (Z.min (i + BATCH_SIZE) (Z.of_nat (length xs)))
   ++ skipn (Z.to_nat (i + BATCH_SIZE)) xs)%list
  = skipn (Z.to_nat i) xs.
Proof.
  intros Hi. unfold Js.arraySlice, Js.clampIndex, BATCH_SIZE.
  set (n := Z.of_nat (length xs)) in *.
  destruct (Z.ltb_spec i 0); [lia |].
  destruct (Z.ltb_spec (Z.min (i + 5) n) 0); [lia |].
  rewrite (Z.min_l i n) by lia.
  rewrite <- (firstn_skipn (Z.to_nat (Z.min (Z.min (i + 5) n) n - i))
                (skipn (Z.to_nat i) xs)) at 2.
  f_equal. rewrite skipn_skipn.
  destruct (Z.le_gt_cases (i + 5) n).
  - f_equal. lia.
  - rewrite !skipn_all2; [reflexivity | lia | lia].
Qed.

(** The batches return the chunks from index [i] on, in their order. *)
Lemma spec_embedBatches (env : Env) (chunks : list Chunk) (fuel : nat) :
  forall i acc,
    (0 <= i)%Z ->
    (Z.of_nat (length chunks) - i <= Z.of_nat fuel)%Z ->
    spec (embedBatches env chunks fuel i acc)
         (fun docs => map chunk docs
                      = (map chunk acc ++ skipn (Z.to_nat i) chunks)%list)
         never.
Proof.
  induction fuel as [|fuel IH]; intros i acc Hi Hfuel; cbn [embedBatches];
    destruct (Z.ltb_spec i (Z.of_nat (length chunks))) as [Hlt | Hge];
    try lia.
  - apply Rules.spec_ret. rewrite skipn_all2 by lia. now rewrite app_nil_r.
  - eapply Rules.spec_bind.
    { apply (Rules.spec_mapM (embedChunk env) _ (fun c d => chunk d = c)).
      intros c. apply spec_embedChunk. }
    intros batchResults Hbatch. apply Forall2_chunk in Hbatch.
    eapply Rules.spec_weaken; [apply IH | | auto].
    + unfold BATCH_SIZE; lia.
    + unfold BATCH_SIZE; lia.
    + intros docs Hdocs. cbv beta in Hdocs. rewrite Hdocs.
      rewrite map_app, Hbatch, <- app_assoc.
      f_equal. apply arraySlice_batch. lia.
  - apply Rules.spec_ret. rewrite skipn_all2 by lia. now rewrite app_nil_r.
Qed.


(** [processFile] returns the limited chunks with their embeddings and
    throws nothing. *)
Lemma processFile_run (env : Env) (filePath fileType : string)
    (meta : gmap string JsVal) (maxChunks : Z) (w : World) :
  exists text w1 chunks w2 docs w',
    extractTextFromFile env filePath fileType w = (Ok text, w1)
    /\ splitTextIntoChunks text 1000 200 meta w1 = (Ok chunks, w2)
    /\ processFile env filePath fileType meta maxChunks w = (Ok docs, w')
    /\ map chunk docs = limitChunks chunks maxChunks
    /\ sameStore w w'.
Proof.
  destruct (Rules.spec_run _ _ w (spec_extractTextFromFile env filePath fileType))
    as (text & w1 & Hextract & _ & Hs1).
  destruct (Rules.spec_run _ _ w1 (spec_splitTextIntoChunks text 1000 200 meta))
    as (chunks & w2 & Hsplit & _ & Hs2).
  destruct (Rules.spec_run _ _ w2
              (spec_embedBatches env (limitChunks chunks maxChunks)
                 (length (limitChunks chunks maxChunks)) 0 []
                 ltac:(lia) ltac:(lia)))
    as (docs & w' & Hembed & Hdocs & Hs3).
  exists text, w1, chunks, w2, docs, w'.
  split; [exact Hextract |]. split; [exact Hsplit |].
  split.
  - unfold processFile, tryCatch. unfold bind at 1. rewrite Hextract.
    unfold bind at 1. rewrite Hsplit. cbv zeta. rewrite Hembed. reflexivity.
  - split; [exact Hdocs |].
    eapply Rules.sameStore_trans; [| exact Hs3].
    eapply Rules.sameStore_trans; eassumption.
Qed.



End ProcessFileFacts.

(** ** The service *)

Module RagServiceFacts.

Import RagService.

(** One run of [indexDocument], step by step: the file is processed, the
    chunks are handed to [addDocuments], whose result is not looked at,
    the upload is unlinked, the registry receives its entry, and the
    call answers with a success. *)
Lemma indexDocument_run (env : Env) (file : UploadedFile) (w : World) :
  let documentId := uuidOf (uuids w) in
  let fileType :=
    fileTypeOf (Js.drop 1 (Js.toLowerCase (path_extname env (originalname file)))) in
  let meta : gmap string JsVal :=
    <["source_file" := VString (originalname file)]>
      (<["file_type" := VString fileType]>
         (<["created_at" := VString (pretty (clock w))]>
            (<["document_id" := VString documentId]> ∅))) in
  exists docs w1 storeResult w2 w',
    DocumentProcessor.processFile env (path file) fileType meta 25
      (setUuids (S (uuids w)) w) = (Ok docs, w1)
    /\ VectorStore.addDocuments env GLOBAL_COLLECTION_NAME docs w1
       = (Ok storeResult, w2)
    /\ indexDocument env file w
       = (Ok (IndexOk documentId GLOBAL_COLLECTION_NAME (length docs)
                (originalname file)), w')
    /\ fs w' = delete (path file) (fs w)
    /\ indexedDocuments w'
       = mapSet documentId
           {| documentId := documentId;
              chunksCount := length docs;
              filename := originalname file;
              fileType := fileType;
              createdAt := pretty (clock w2) |}
           (indexedDocuments w).
Proof.
  intros documentId fileType meta.
  destruct (ProcessFileFacts.processFile_run env (path file) fileType meta 25
              (setUuids (S (uuids w)) w))
    as (text & wa & chunks & wb & docs & w1 & _ & _ & Hprocess & _ & Hs1).
  destruct (Rules.spec_run _ _ w1
              (VectorStoreFacts.spec_addDocuments env GLOBAL_COLLECTION_NAME docs))
    as (storeResult & w2 & Hstore & _ & Hs2).
  assert (Hs : sameStore w w2).
  { eapply Rules.sameStore_trans; [| exact Hs2].
    eapply Rules.sameStore_trans; [| exact Hs1]. repeat split. }
  destruct Hs as (Hfs & Hdocs & _).
  exists docs, w1, storeResult, w2.
  unfold indexDocument, tryCatch at 1.
  unfold bind at 1. cbn [uuidv4].
  unfold bind at 1. cbn [toISOString gets setUuids clock].
  unfold bind at 1. fold documentId. fold fileType. fold meta.
  rewrite Hprocess.
  unfold bind at 1. rewrite Hstore.
  unfold bind at 1. unfold tryCatch at 1, unlinkAsync.
  destruct (fs w2 !! path file) as [data|] eqn:Hfile.
  - eexists. split; [reflexivity |]. split; [reflexivity |].
    split; [reflexivity |]. cbn.
    split; [now rewrite Hfs | now rewrite Hdocs].
  - eexists. split; [reflexivity |]. split; [reflexivity |].
    split; [reflexivity |]. cbn.
    split; [| now rewrite Hdocs].
    rewrite <- Hfs. symmetry. apply delete_id. exact Hfile.
Qed.

Lemma In_mapSet {V} (k : string) (v : V) (m : list (string * V)) :
  In v (mapValues (mapSet k v m)).
Proof.
  unfold mapValues. induction m as [|[k' v'] m IH]; cbn [mapSet].
  - left. reflexivity.
  - destruct (String.eqb k k'); [left; reflexivity | right; exact IH].
Qed.

Lemma spec_getCollection (env : Env) (collectionName : string) :
  spec (VectorStore.getCollection env collectionName) (fun _ => True) never.
Proof.
  unfold VectorStore.getCollection. apply Rules.spec_tryCatch with (E := anyError).
  - eapply Rules.spec_bind; [apply Rules.spec_nextRequest |]. intros n _.
    eapply Rules.spec_bind; [apply Rules.spec_await with (Q := fun _ => True); auto |].
    intros info _. apply Rules.spec_ret. exact I.
  - intros error _. apply Rules.spec_ret. exact I.
Qed.

(** [getSystemStatus] answers with the values of the registry as it
    stands. *)
Lemma getSystemStatus_run (env : Env) (w : World) :
  exists status w',
    getSystemStatus env w = (Ok (StatusJson.StatusOk status), w')
    /\ StatusJson.indexedDocuments status = mapValues (indexedDocuments w).
Proof.
  destruct (Rules.spec_run _ _ w (spec_getCollection env GLOBAL_COLLECTION_NAME))
    as (info & w1 & Hget & _ & (_ & Hdocs & _)).
  unfold getSystemStatus, tryCatch at 1.
  unfold bind at 1. cbn [gets].
  unfold bind at 1. unfold tryCatch at 1. unfold bind at 1. rewrite Hget.
  destruct info as [info|]; cbn; eexists _, _;
    (split; [reflexivity |]); cbn; now rewrite Hdocs.
Qed.

(** C1 is violated by the code. In the sample process, with a Qdrant
    that refuses every write, [addDocuments] answers
    [{ success: false, error }] for the processed chunk, and
    [indexDocument] still answers with a success and registers the
    document: the result of [addDocuments] is stored in [storeResult] and
    never looked at. *)
Lemma indexDocument_masks_upsert_failure :
  exists docs w1 w2 w',
    DocumentProcessor.processFile Sample.envUpsertFails "uploads/document-1.pdf" "pdf"
      (<["source_file" := VString "notes.pdf"]>
         (<["file_type" := VString "pdf"]>
            (<["created_at" := VString "0"]>
               (<["document_id" := VString (uuidOf 0)]> ∅))))
      25 (setUuids 1 Sample.world) = (Ok docs, w1)
    /\ length docs = 1
    /\ VectorStore.addDocuments Sample.envUpsertFails GLOBAL_COLLECTION_NAME docs w1
       = (Ok (VectorStore.StoreFailed "connect ECONNREFUSED 127.0.0.1:6333"), w2)
    /\ indexDocument Sample.envUpsertFails Sample.upload Sample.world
       = (Ok (IndexOk (uuidOf 0) "global_documents" 1 "notes.pdf"), w')
    /\ map fst (indexedDocuments w') = [uuidOf 0].
Proof.
  destruct (indexDocument_run Sample.envUpsertFails Sample.upload Sample.world)
    as (docs & w1 & storeResult & w2 & w' & Hprocess & Hstore & Hindex & _ & Hdocs).
  change (fileTypeOf _) with "pdf" in Hprocess.
  change (pretty (clock Sample.world)) with "0" in Hprocess.
  change (uuids Sample.world) with 0 in Hprocess.
  change (RagService.path Sample.upload) with "uploads/document-1.pdf" in Hprocess.
  change (originalname Sample.upload) with "notes.pdf" in Hprocess.
  assert (Hlen : length docs = 1).
  { pose proof Hprocess as Hp. vm_compute in Hp. injection Hp as <- _. reflexivity. }
  assert (Hfailed : storeResult
                    = VectorStore.StoreFailed "connect ECONNREFUSED 127.0.0.1:6333").
  { pose proof Hprocess as Hp. vm_compute in Hp. injection Hp as Hd Hw.
    rewrite <- Hd, <- Hw in Hstore.
    vm_compute in Hstore. injection Hstore as <- _. reflexivity. }
  exists docs, w1, w2, w'.
  split; [exact Hprocess |].
  split; [exact Hlen |].
  split; [rewrite <- Hfailed; exact Hstore |].
  split.
  - rewrite Hindex, Hlen. reflexivity.
  - rewrite Hdocs. reflexivity.
Qed.



(** C8. When [indexDocument] has answered with a success for a file, a
    call of [getSystemStatus] in the world it left answers with a status
    whose [indexedDocuments] list holds an entry with the [documentId] of
    the answer, and the [chunksCount] of that entry is the number of
    chunks [processFile] returned for the file, which is also the
    [documentCount] of the answer. *)
Theorem indexDocument_then_status (env : Env) (file : UploadedFile) (w w' : World)
    (docId collectionName : string) (documentCount : nat) (fname : string) :
  indexDocument env file w
  = (Ok (IndexOk docId collectionName documentCount fname), w') ->
  exists status w'' entry meta docs w1,
    getSystemStatus env w' = (Ok (StatusJson.StatusOk status), w'')
    /\ In entry (StatusJson.indexedDocuments status)
    /\ documentId entry = docId
    /\ chunksCount entry = documentCount
    /\ DocumentProcessor.processFile env (path file) (fileType entry) meta 25
         (setUuids (S (uuids w)) w) = (Ok docs, w1)
    /\ documentCount = length docs.
Proof.
  intros Hrun.
  destruct (indexDocument_run env file w)
    as (docs & w1 & storeResult & w2 & wi & Hprocess & _ & Hindex & _ & Hdocs).
  rewrite Hindex in Hrun. injection Hrun as <- <- <- <- <-.
  destruct (getSystemStatus_run env wi) as (status & w'' & Hstatus & Hlist).
  eexists status, w'', _, _, docs, w1.
  split; [exact Hstatus |].
  split; [rewrite Hlist, Hdocs; apply In_mapSet |].
  cbn [documentId chunksCount fileType].
  split; [reflexivity |]. split; [reflexivity |].
  split; [exact Hprocess | reflexivity].
Qed.

(** The round trip in the sample process. *)
Lemma indexDocument_then_status_witness :
  exists w' status w'' entry,
    indexDocument Sample.env Sample.upload Sample.world
    = (Ok (IndexOk (uuidOf 0) "global_documents" 1 "notes.pdf"), w')
    /\ getSystemStatus Sample.env w' = (Ok (StatusJson.StatusOk status), w'')
    /\ In entry (StatusJson.indexedDocuments status)
    /\ documentId entry = uuidOf 0
    /\ chunksCount entry = 1.
Proof.
  assert (Hrun : indexDocument Sample.env Sample.upload Sample.world
                 = (Ok (IndexOk (uuidOf 0) "global_documents" 1 "notes.pdf"),
                    snd (indexDocument Sample.env Sample.upload Sample.world)))
    by (vm_compute; reflexivity).
  destruct (indexDocument_then_status Sample.env Sample.upload Sample.world _
              (uuidOf 0) "global_documents" 1 "notes.pdf" Hrun)
    as (status & w'' & entry & meta & docs & w1 & H1 & H2 & H3 & H4 & _).
  eexists _, status, w'', entry. split; [exact Hrun |]. auto.
Defined.

End RagServiceFacts.

(** ** The chat route *)

Module RagRoutesFacts.

Import RagRoutes.

Lemma spec_toSearchResult (hit : ScoredPoint) :
  spec (VectorStore.toSearchResult hit) (fun _ => True) anyError.
Proof.
  unfold VectorStore.toSearchResult. destruct (hit_payload hit).
  - apply Rules.spec_ret. exact I.
  - apply Rules.spec_throw. exact I.
Qed.

Lemma spec_search (env : Env) (collectionName : string) (queryEmbedding : list JsNum)
    (limit : Z) (minScore : JsNum) (timeoutMs : Z) :
  spec (VectorStore.search env collectionName queryEmbedding limit minScore timeoutMs)
       (fun _ => True) never.
Proof.
  unfold VectorStore.search. apply Rules.spec_tryCatch with (E := anyError).
  - eapply Rules.spec_bind; [apply Rules.spec_nextRequest |]. intros n _.
    eapply Rules.spec_bind; [apply Rules.spec_await with (Q := fun _ => True); auto |].
    intros collections _.
    destruct (negb (existsb (String.eqb collectionName) collections)).
    + apply Rules.spec_ret. exact I.
    + eapply Rules.spec_bind; [apply Rules.spec_nextRequest |]. intros n' _.
      eapply Rules.spec_bind; [apply Rules.spec_race with (Q := fun _ => True); auto |].
      intros hits _.
      eapply Rules.spec_weaken;
        [apply (Rules.spec_mapM VectorStore.toSearchResult hits (fun _ _ => True));
         intros hit; apply spec_toSearchResult
        | intros a _; exact I | auto].
  - intros error _. apply Rules.spec_ret. exact I.
Qed.

(** C10. The chat route answers 400 "Query is required" exactly when
    the [query] field of the body is falsy, which covers the absent field
    and the empty string. Every other query, the string of one space
    among them, goes through [generateEmbedding], [search] on the global
    collection and [generateResponse], and the route answers with what
    they produce: 200 with the response and the contexts, or 500 with the
    apology when the generation throws. *)
Theorem chat_validates_falsy_only (env : Env) (body : gmap string JsVal) (w : World) :
  let query := default VUndefined (body !! "query") in
  truthy VUndefined = false
  /\ truthy (VString "") = false
  /\ truthy (VString " ") = true
  /\ (truthy query = false ->
      chat env body w
      = (Ok {| status := 400; json := Rejected "Query is required" |}, w))
  /\ (truthy query = true ->
      exists queryEmbedding w1 searchResults w2 generated w',
        DocumentProcessor.generateEmbedding env query 3 10000 w
        = (Ok queryEmbedding, w1)
        /\ VectorStore.search env RagService.GLOBAL_COLLECTION_NAME queryEmbedding
             5 (Num (7 / 10)%R) 30000 w1
           = (Ok searchResults, w2)
        /\ ContentGenerator.generateResponse env query searchResults w2
           = (generated, w')
        /\ chat env body w
           = (Ok match generated with
                 | Ok response =>
                     {| status := 200;
                        json := Answer (RagService.ChatOk query response
                                          (map RagService.toContext searchResults)) |}
                 | Throw error =>
                     {| status := 500;
                        json :=
                          Answer (RagService.ChatFailed query (message error)
                                    "I'm sorry, I encountered an error processing your query. Please try again.") |}
                 end, w')).
Proof.
  intros query. split; [reflexivity |]. split; [reflexivity |].
  split; [reflexivity |]. split.
  - intros Hfalsy. unfold chat, tryCatch. fold query. rewrite Hfalsy. reflexivity.
  - intros Htruthy.
    destruct (Rules.spec_run _ _ w
                (Embedding.spec_generateEmbedding_any env query 3 10000))
      as (queryEmbedding & w1 & Hembed & _ & _).
    destruct (Rules.spec_run _ _ w1
                (spec_search env RagService.GLOBAL_COLLECTION_NAME queryEmbedding
                   5 (Num (7 / 10)%R) 30000))
      as (searchResults & w2 & Hsearch & _ & _).
    destruct (ContentGenerator.generateResponse env query searchResults w2)
      as [generated w'] eqn:Hgenerate.
    exists queryEmbedding, w1, searchResults, w2, generated, w'.
    split; [exact Hembed |]. split; [exact Hsearch |]. split; [exact Hgenerate |].
    unfold chat, tryCatch at 1. fold query. rewrite Htruthy. cbn [negb].
    unfold bind at 1. unfold RagService.generateChatResponse, tryCatch at 1.
    unfold bind at 1. rewrite Hembed.
    unfold bind at 1. unfold tryCatch at 1. rewrite Hsearch.
    unfold bind at 1. rewrite Hgenerate.
    destruct generated as [response | error]; reflexivity.
Qed.

(** A query of one space in the sample process. *)
Lemma chat_validates_falsy_only_witness :
  exists w',
    chat Sample.env {[ "query" := VString " " ]} Sample.world
    = (Ok {| status := 200;
             json := Answer (RagService.ChatOk (VString " ") "It is a demo." []) |},
       w').
Proof.
  destruct (chat_validates_falsy_only Sample.env {[ "query" := VString " " ]}
              Sample.world)
    as (_ & _ & _ & _ & Hpass).
  destruct (Hpass ltac:(reflexivity))
    as (queryEmbedding & w1 & searchResults & w2 & generated & w'
        & Hembed & Hsearch & Hgenerate & Hchat).
  exists w'. rewrite Hchat.
  vm_compute in Hembed. injection Hembed as <- <-.
  vm_compute in Hsearch. injection Hsearch as <- <-.
  vm_compute in Hgenerate. injection Hgenerate as <- <-.
  reflexivity.
Defined.

End RagRoutesFacts.


(** * Further properties of the chunker *)

Module ChunkerShape.

Import DocumentProcessor.

Lemma trim_empty_iff_len (s : string) :
  (len (Js.trim s) >? 0)%Z = negb (String.eqb (Js.trim s) EmptyString).
Proof.
  destruct (Js.trim s) as [|c r]; [reflexivity |].
  unfold len. cbn [String.length String.eqb negb].
  destruct (Z.gtb_spec (Z.of_nat (S (String.length r))) 0); [| lia].
  destruct (Ascii.eqb c c); reflexivity.
Qed.

Lemma len_zero_empty (s : string) : (len s >? 0)%Z = negb (String.eqb s EmptyString).
Proof.
  destruct s as [|c r]; [reflexivity |].
  unfold len. cbn [String.length String.eqb negb].
  destruct (Z.gtb_spec (Z.of_nat (S (String.length r))) 0); [reflexivity | lia].
Qed.

Lemma single_paragraph_run (text : string) (chunkSize overlap : Z)
    (meta : gmap string JsVal) (w : World) :
  (forall c, In c (list_ascii_of_string text) -> Js.isNewline c = false) ->
  Js.trim text <> EmptyString ->
  splitTextIntoChunks text chunkSize overlap meta w
  = (Ok [ {| id := uuidOf (uuids w); content := Js.trim text; metadata := meta |} ],
     setUuids (S (uuids w)) w).
Proof.
  intros Hnl Htrim. unfold splitTextIntoChunks.
  destruct (String.eqb_spec text EmptyString) as [-> | Hne];
    [exfalso; apply Htrim; reflexivity |].
  unfold Js.splitBlankLines.
  rewrite (JsFacts.splitBlankLinesFrom_no_newline text Hnl).
  cbn [chunkParagraphs]. change (len "" >? 0)%Z with false.
  rewrite andb_false_r. cbn [String.eqb].
  change ("" ++ "" ++ text) with text.
  unfold bind at 1. cbn [ret].
  rewrite trim_empty_iff_len.
  destruct (String.eqb_spec (Js.trim text) EmptyString) as [Hempty | _];
    [contradiction |].
  cbn [negb]. rewrite Chunker.pushChunk_run. reflexivity.
Qed.

(** X1. A text without newline is one paragraph, and one paragraph is never
    cut: whatever [chunkSize] and [overlap] are, the result is the one
    chunk holding the trimmed text. *)
Theorem splitTextIntoChunks_single_paragraph (text : string) (chunkSize overlap : Z)
    (meta : gmap string JsVal) (w : World) :
  (forall c, In c (list_ascii_of_string text) -> Js.isNewline c = false) ->
  Js.trim text <> EmptyString ->
  exists c w',
    splitTextIntoChunks text chunkSize overlap meta w = (Ok [c], w')
    /\ content c = Js.trim text.
Proof.
  intros Hnl Htrim.
  rewrite (single_paragraph_run text chunkSize overlap meta w Hnl Htrim).
  eexists _, _. split; reflexivity.
Qed.

(** A paragraph of eighteen characters with [chunkSize = 5]. *)
Lemma splitTextIntoChunks_single_paragraph_witness :
  exists c w',
    splitTextIntoChunks "one paragraph only" 5 2 ∅ Sample.world = (Ok [c], w')
    /\ content c = "one paragraph only".
Proof.
  apply (splitTextIntoChunks_single_paragraph "one paragraph only" 5 2 ∅ Sample.world).
  - intros c Hc. cbn in Hc.
    repeat (destruct Hc as [<- | Hc]; [reflexivity |]). contradiction.
  - discriminate.
Defined.

Local Notation "'occupied' s" := (if String.eqb s EmptyString then 0 else 1) (at level 10, s at level 9).

(** Chunks closed so far, the buffer if it holds something, and the
    paragraphs still to come never count more than they did. *)
Lemma chunkParagraphs_count (paragraphs : list string) (chunkSize overlap : Z)
    (meta : gmap string JsVal) :
  forall chunks cur w,
    exists chunks' cur' w',
      chunkParagraphs paragraphs chunkSize overlap meta chunks cur w
      = (Ok (chunks', cur'), w')
      /\ length chunks' + occupied cur'
         <= length chunks + occupied cur + length paragraphs.
Proof.
  induction paragraphs as [|p ps IH]; intros chunks cur w; cbn [chunkParagraphs].
  - exists chunks, cur, w. split; [reflexivity |]. cbn [length]. lia.
  - destruct ((len cur + len p >? chunkSize) && (len cur >? 0))%Z eqn:Hflush.
    + apply andb_true_iff in Hflush. destruct Hflush as [_ Hcur].
      rewrite len_zero_empty in Hcur.
      unfold bind at 1. rewrite Chunker.pushChunk_run.
      match goal with
      | |- context [chunkParagraphs ps _ _ _ ?cs ?b ?w1] =>
          destruct (IH cs b w1) as (chunks' & cur' & w' & Hrun & Hcount)
      end.
      exists chunks', cur', w'. split; [exact Hrun |].
      rewrite length_app in Hcount. cbn [length] in *.
      destruct (String.eqb cur EmptyString); [discriminate |].
      repeat match type of Hcount with
             | context [String.eqb ?b EmptyString] => destruct (String.eqb b EmptyString)
             end; lia.
    + match goal with
      | |- context [chunkParagraphs ps _ _ _ ?cs ?b ?w1] =>
          destruct (IH cs b w1) as (chunks' & cur' & w' & Hrun & Hcount)
      end.
      exists chunks', cur', w'. split; [exact Hrun |].
      cbn [length].
      destruct (String.eqb cur EmptyString) eqn:Hcur;
        repeat match type of Hcount with
               | context [String.eqb ?b EmptyString] =>
                   destruct (String.eqb b EmptyString)
               end; lia.
Qed.

(** X2. [splitTextIntoChunks] never returns more chunks than the text has
    paragraphs. *)
Theorem splitTextIntoChunks_at_most_one_chunk_per_paragraph (text : string)
    (chunkSize overlap : Z) (meta : gmap string JsVal) (w : World) :
  exists chunks w',
    splitTextIntoChunks text chunkSize overlap meta w = (Ok chunks, w')
    /\ length chunks <= length (Js.splitBlankLines text).
Proof.
  unfold splitTextIntoChunks.
  destruct (String.eqb text EmptyString).
  - exists [], w. split; [reflexivity |]. cbn [length]. lia.
  - destruct (chunkParagraphs_count (Js.splitBlankLines text) chunkSize overlap meta
                [] EmptyString w) as (chunks & cur & w1 & Hrun & Hcount).
    unfold bind at 1. rewrite Hrun. cbn [length String.eqb] in Hcount.
    rewrite trim_empty_iff_len.
    destruct (String.eqb_spec (Js.trim cur) EmptyString) as [_ | Hfull]; cbn [negb].
    + exists chunks, w1. split; [reflexivity |].
      destruct (String.eqb cur EmptyString); lia.
    + rewrite Chunker.pushChunk_run. eexists _, _. split; [reflexivity |].
      rewrite length_app. cbn [length].
      destruct (String.eqb_spec cur EmptyString) as [-> | _];
        [exfalso; apply Hfull; reflexivity | lia].
Qed.

Lemma setUuids_same (w : World) : setUuids (uuids w + 0) w = w.
Proof. destruct w. unfold setUuids. cbn. rewrite Nat.add_0_r. reflexivity. Qed.

(** The chunks the loop adds take the next identifiers in turn and carry
    the metadata; nothing but the identifier count changes. *)
Lemma chunkParagraphs_ids (paragraphs : list string) (chunkSize overlap : Z)
    (meta : gmap string JsVal) :
  forall chunks cur w,
    exists added cur',
      chunkParagraphs paragraphs chunkSize overlap meta chunks cur w
      = (Ok ((chunks ++ added)%list, cur'), setUuids (uuids w + length added) w)
      /\ map id added = map uuidOf (seq (uuids w) (length added))
      /\ Forall (fun c => metadata c = meta) added.
Proof.
  induction paragraphs as [|p ps IH]; intros chunks cur w; cbn [chunkParagraphs].
  - exists [], cur. rewrite app_nil_r. cbn [length]. rewrite setUuids_same.
    repeat split. constructor.
  - destruct ((len cur + len p >? chunkSize) && (len cur >? 0))%Z.
    + unfold bind at 1. rewrite Chunker.pushChunk_run.
      match goal with
      | |- context [chunkParagraphs ps _ _ _ (chunks ++ [?c0])%list ?b ?w1] =>
          destruct (IH (chunks ++ [c0])%list b w1) as (added & cur' & Hrun & Hids & Hmeta);
          exists (c0 :: added), cur'
      end.
      rewrite Hrun. split; [| split].
      * rewrite <- app_assoc. cbn [app length setUuids uuids].
        unfold setUuids. cbn. do 2 f_equal. lia.
      * cbn [map length seq id]. f_equal. exact Hids.
      * constructor; [reflexivity | exact Hmeta].
    + apply IH.
Qed.

(** X3. Every chunk of [splitTextIntoChunks] carries the metadata it was
    given, the chunks take the next identifiers of [uuidv4] in their
    order, one each, and nothing else in the world changes. *)
Theorem splitTextIntoChunks_fresh_ids (text : string) (chunkSize overlap : Z)
    (meta : gmap string JsVal) (w : World) :
  exists chunks,
    splitTextIntoChunks text chunkSize overlap meta w
    = (Ok chunks, setUuids (uuids w + length chunks) w)
    /\ map id chunks = map uuidOf (seq (uuids w) (length chunks))
    /\ Forall (fun c => metadata c = meta) chunks.
Proof.
  unfold splitTextIntoChunks.
  destruct (String.eqb text EmptyString).
  - exists []. cbn [length]. rewrite setUuids_same. repeat split. constructor.
  - destruct (chunkParagraphs_ids (Js.splitBlankLines text) chunkSize overlap meta
                [] EmptyString w) as (added & cur & Hrun & Hids & Hmeta).
    unfold bind at 1. rewrite Hrun. cbn [app].
    destruct (len (Js.trim cur) >? 0)%Z.
    + rewrite Chunker.pushChunk_run.
      match goal with
      | |- exists _, (Ok ?l, _) = _ /\ _ => exists l
      end.
      split; [| split].
      * rewrite length_app. cbn [length setUuids uuids].
        unfold setUuids. cbn. do 2 f_equal. lia.
      * rewrite !map_app, length_app, seq_app, map_app. cbn [length map seq id uuids setUuids].
        f_equal. exact Hids.
      * apply Forall_app. split; [exact Hmeta |]. constructor; [reflexivity | constructor].
    + exists added. auto.
Qed.

End ChunkerShape.

(** * Further properties of [processFile] *)

Module ProcessFileShape.

Import DocumentProcessor.

Lemma Forall2_right {A B} (P : B -> Prop) (xs : list A) (ys : list B) :
  Forall2 (fun _ y => P y) xs ys -> Forall P ys.
Proof. induction 1; constructor; assumption. Qed.

(** The callback returns the vector of [generateEmbedding] and sets no
    [embeddingError]: its [catch] is never entered. *)
Lemma spec_embedChunk_clean (env : Env) (c : Chunk) :
  spec (embedChunk env c)
       (fun d => embeddingError d = None
                 /\ (length (embedding d) = 1536
                     \/ exists n model input,
                          outcome (createEmbedding env n model input)
                          = Ok (embedding d)))
       never.
Proof.
  unfold embedChunk. apply Rules.spec_tryCatch with (E := never).
  - eapply Rules.spec_bind; [apply Embedding.spec_generateEmbedding_answer |].
    intros e He. apply Rules.spec_ret. split; [reflexivity | exact He].
  - intros error [].
Qed.

Lemma spec_embedBatches_Forall (env : Env) (chunks : list Chunk) (fuel : nat)
    (P : EmbeddedChunk -> Prop) :
  (forall c, spec (embedChunk env c) P never) ->
  forall i acc,
    Forall P acc -> spec (embedBatches env chunks fuel i acc) (Forall P) never.
Proof.
  intros Hchunk. induction fuel as [|fuel IH]; intros i acc Hacc; cbn [embedBatches];
    destruct (i <? Z.of_nat (length chunks))%Z;
    try (apply Rules.spec_ret; exact Hacc).
  eapply Rules.spec_bind.
  { apply (Rules.spec_mapM (embedChunk env) _ (fun _ d => P d)). intros c. apply Hchunk. }
  intros batchResults Hbatch. apply Forall2_right in Hbatch.
  apply IH. apply Forall_app. split; assumption.
Qed.

Lemma processFile_clean (env : Env) (filePath fileType : string)
    (meta : gmap string JsVal) (maxChunks : Z) (w : World) :
  exists docs w',
    processFile env filePath fileType meta maxChunks w = (Ok docs, w')
    /\ Forall (fun d => embeddingError d = None
                        /\ (length (embedding d) = 1536
                            \/ exists n model input,
                                 outcome (createEmbedding env n model input)
                                 = Ok (embedding d))) docs.
Proof.
  assert (Hspec : spec (processFile env filePath fileType meta maxChunks)
                    (Forall (fun d => embeddingError d = None
                                      /\ (length (embedding d) = 1536
                                          \/ exists n model input,
                                               outcome (createEmbedding env n model input)
                                               = Ok (embedding d))))
                    never).
  { unfold processFile. apply Rules.spec_tryCatch with (E := never).
    - eapply Rules.spec_bind; [apply ProcessFileFacts.spec_extractTextFromFile |].
      intros text _.
      eapply Rules.spec_bind; [apply ProcessFileFacts.spec_splitTextIntoChunks |].
      intros chunks _.
      apply spec_embedBatches_Forall; [apply spec_embedChunk_clean | constructor].
    - intros error []. }
  destruct (Rules.spec_run _ _ w Hspec) as (docs & w' & Hrun & Hdocs & _).
  exists docs, w'. split; [exact Hrun | exact Hdocs].
Qed.

(** X4. No document [processFile] returns has an [embeddingError], whatever
    the provider did: a failed embedding is replaced inside
    [generateEmbedding], which reports nothing. Every vector has 1536
    values when the provider keeps its contract. *)
Theorem processFile_never_sets_embeddingError (env : Env) (filePath fileType : string)
    (meta : gmap string JsVal) (maxChunks : Z) (w : World) :
  exists docs w',
    processFile env filePath fileType meta maxChunks w = (Ok docs, w')
    /\ Forall (fun d => embeddingError d = None) docs
    /\ (providerContract env -> Forall (fun d => length (embedding d) = 1536) docs).
Proof.
  destruct (processFile_clean env filePath fileType meta maxChunks w)
    as (docs & w' & Hrun & Hdocs).
  exists docs, w'. split; [exact Hrun |]. split.
  - eapply Forall_impl; [exact Hdocs |]. intros d [Hnone _]. exact Hnone.
  - intros Hc. eapply Forall_impl; [exact Hdocs |].
    intros d [_ [Hlen | (n & model & input & Hanswer)]];
      [exact Hlen | eapply Hc; exact Hanswer].
Qed.

(** Extensions outside the eight the [switch] names are typed [text]. *)
Lemma fileTypeOf_other (ext : string) :
  ~ In ext ["pdf"; "docx"; "doc"; "jpg"; "jpeg"; "png"; "ppt"; "pptx"] ->
  RagService.fileTypeOf ext = "text".
Proof.
  intros Hext. unfold RagService.fileTypeOf.
  repeat match goal with
         | |- context [String.eqb ext ?k] =>
             destruct (String.eqb_spec ext k) as [-> | _];
             [exfalso; apply Hext; cbn; tauto |]
         end.
  cbn. destruct (String.eqb ext "txt"); reflexivity.
Qed.

(** X5. A file whose extension is none of [pdf], [docx], [doc], [jpg],
    [jpeg], [png], [ppt], [pptx] (a [txt] file, then) is never read:
    whatever the upload holds, [processFile] returns one document, and its
    text is the placeholder for an unsupported type. *)
Theorem processFile_text_is_placeholder (env : Env) (filePath ext : string)
    (meta : gmap string JsVal) (maxChunks : Z) (w : World) :
  ~ In ext ["pdf"; "docx"; "doc"; "jpg"; "jpeg"; "png"; "ppt"; "pptx"] ->
  (1 <= maxChunks)%Z ->
  exists d w',
    processFile env filePath (RagService.fileTypeOf ext) meta maxChunks w = (Ok [d], w')
    /\ content (chunk d) = "[Unsupported file type: text]".
Proof.
  intros Hext Hmax. rewrite (fileTypeOf_other ext Hext).
  set (c := {| id := uuidOf (uuids w); content := "[Unsupported file type: text]";
               metadata := meta |}).
  assert (Hextract : extractTextFromFile env filePath "text" w
                     = (Ok "[Unsupported file type: text]", w)) by reflexivity.
  assert (Hsplit : splitTextIntoChunks "[Unsupported file type: text]" 1000 200 meta w
                   = (Ok [c], setUuids (S (uuids w)) w)) by reflexivity.
  assert (Hlimit : limitChunks [c] maxChunks = [c]).
  { unfold limitChunks. cbn [length].
    destruct (Z.gtb_spec (Z.of_nat 1) maxChunks); [lia | reflexivity]. }
  destruct (Rules.spec_run _ _ (setUuids (S (uuids w)) w)
              (ProcessFileFacts.spec_embedBatches env [c] 1 0 []
                 ltac:(lia) ltac:(cbn [length]; lia)))
    as (docs & w' & Hembed & Hdocs & _).
  cbn [map app Z.to_nat skipn] in Hdocs.
  destruct docs as [|d [|d' docs]]; try discriminate Hdocs.
  injection Hdocs as Hd.
  exists d, w'. split.
  - unfold processFile, tryCatch. unfold bind at 1. rewrite Hextract.
    unfold bind at 1. rewrite Hsplit. cbv zeta. rewrite Hlimit.
    cbn [length]. rewrite Hembed. reflexivity.
  - rewrite Hd. reflexivity.
Qed.

(** An upload named [*.txt] with the default limit. *)
Lemma processFile_text_is_placeholder_witness :
  exists d w',
    processFile Sample.env "uploads/document-3.txt" (RagService.fileTypeOf "txt") ∅ 25
      Sample.world = (Ok [d], w')
    /\ content (chunk d) = "[Unsupported file type: text]".
Proof.
  apply (processFile_text_is_placeholder Sample.env "uploads/document-3.txt" "txt" ∅ 25
           Sample.world).
  - cbn. intros H. repeat (destruct H as [H | H]; [discriminate H |]). exact H.
  - lia.
Defined.

End ProcessFileShape.

(** * What [generateEmbedding] costs and what it sends *)

Module EmbeddingBudget.

Import DocumentProcessor.

Lemma generateMockEmbedding_world (env : Env) (n : nat) (w : World) :
  requests (snd (generateMockEmbedding env n w)) = requests w
  /\ clock (snd (generateMockEmbedding env n w)) = clock w.
Proof. rewrite Embedding.generateMockEmbedding_run. split; reflexivity. Qed.

Lemma generateMockEmbedding_some (env : Env) (n : nat) (w : World) :
  exists v, generateMockEmbedding env n w = (Ok v, setDraws (draws w + n) w).
Proof. eexists. apply Embedding.generateMockEmbedding_run. Qed.

(** The retry loop from iteration [attempt] on, when [remaining]
    iterations are left of [retries]. *)
Lemma embeddingAttempts_budget (env : Env) (text : JsVal) (retries timeoutMs : Z) :
  (0 <= timeoutMs)%Z ->
  forall remaining attempt w,
    (attempt + Z.of_nat remaining = retries + 1)%Z ->
    (requests w
     <= requests (snd (embeddingAttempts env text retries timeoutMs remaining attempt w))
     <= requests w + remaining)%nat
    /\ (clock (snd (embeddingAttempts env text retries timeoutMs remaining attempt w))
        <= clock w + Z.of_nat remaining * timeoutMs
           + Z.of_nat (pred remaining) * 15000)%Z
    /\ (OPENAI_API_KEY env = false ->
        snd (embeddingAttempts env text retries timeoutMs remaining attempt w)
        = setDraws (draws w + 1536) w).
Proof.
  intros Htimeout. induction remaining as [|remaining IH]; intros attempt w Hleft.
  - cbn [embeddingAttempts].
    destruct (generateMockEmbedding_some env 1536 w) as [v ->].
    cbn [snd requests clock setDraws]. split; [lia |]. split; [lia | reflexivity].
  - cbn [embeddingAttempts]. unfold tryCatch.
    match goal with
    | |- context [match ?b w with _ => _ end] => set (body := b)
    end.
    assert (Hbody : forall r w1,
               body w = (r, w1) ->
               (requests w <= requests w1 <= S (requests w))%nat
               /\ (clock w1 <= clock w + timeoutMs)%Z
               /\ match r with
                  | Ok _ => OPENAI_API_KEY env = false -> w1 = setDraws (draws w + 1536) w
                  | Throw _ => OPENAI_API_KEY env = true
                  end).
    { intros r w1 Hrun. subst body.
      destruct (negb (OPENAI_API_KEY env)) eqn:Hneg;
        [apply negb_true_iff in Hneg | apply negb_false_iff in Hneg]; rewrite Hneg;
        cbv iota in Hrun.
      - destruct (generateMockEmbedding_some env 1536 w) as [v Hmock].
        rewrite Hmock in Hrun. injection Hrun as <- <-.
        cbn [requests clock setDraws]. split; [lia |]. split; [lia | reflexivity].
      - unfold bind at 1 in Hrun. destruct (trimOf text w) as [[s|e0] w0] eqn:Htrim.
        + assert (w0 = w)
            by (destruct text; unfold trimOf, ret, throw in Htrim; congruence).
          subst w0.
          cbv zeta in Hrun. unfold bind at 1 in Hrun. cbn [nextRequest] in Hrun.
          unfold race in Hrun.
          destruct (latency _ <? timeoutMs)%Z eqn:Hlate in Hrun;
            injection Hrun as <- <-; cbn [requests clock setClock setRequests];
            (split; [lia |]); (split; [lia |]).
          * destruct (outcome _); [discriminate | reflexivity].
          * reflexivity.
        + assert (w0 = w)
            by (destruct text; unfold trimOf, ret, throw in Htrim; congruence).
          subst w0.
          injection Hrun as <- <-. split; [lia |]. split; [lia | reflexivity]. }
    destruct (body w) as [[v|e] w1] eqn:Hrun;
      destruct (Hbody _ _ eq_refl) as (Hreq & Hclock & Hkey).
    + cbn [snd]. split; [lia |]. split; [| exact Hkey].
      cbn [pred]. nia.
    + destruct (attempt =? retries)%Z eqn:Hlast.
      * destruct (generateMockEmbedding_some env 1536 w1) as [v ->].
        cbn [snd requests clock setDraws]. split; [lia |]. split; [nia | congruence].
      * apply Z.eqb_neq in Hlast. unfold bind. cbn [sleep modify].
        match goal with
        | |- context [embeddingAttempts _ _ _ _ remaining ?a ?w2] =>
            destruct (IH a w2 ltac:(lia)) as (Hr & Hc & _);
            set (w' := snd (embeddingAttempts env text retries timeoutMs remaining a w2))
              in *;
            assert (Hw2r : requests w2 = requests w1) by reflexivity;
            assert (Hw2c : (clock w2 <= clock w1 + 15000)%Z)
              by (cbn [clock setClock]; pose proof (Z.le_min_r
                    ((if isRateLimit e then 2000 else 1000) * 2 ^ (attempt - 1)) 15000);
                  lia)
        end.
        destruct remaining as [|remaining']; [lia |].
        cbn [pred] in *. split; [lia |]. split; [nia | congruence].
Qed.

(** X6. [generateEmbedding] sends at most [retries] requests to the provider,
    and none without a key. With a timeout that is not negative it is
    through after at most [retries] timeouts and [retries - 1] waits of at
    most 15 seconds each; without a key no time passes at all. *)
Theorem generateEmbedding_budget (env : Env) (text : JsVal) (retries timeoutMs : Z)
    (w : World) :
  (0 <= timeoutMs)%Z ->
  exists v w',
    generateEmbedding env text retries timeoutMs w = (Ok v, w')
    /\ (requests w <= requests w' <= requests w + Z.to_nat retries)%nat
    /\ (clock w' <= clock w + Z.max retries 0 * timeoutMs
                    + Z.max (retries - 1) 0 * 15000)%Z
    /\ (OPENAI_API_KEY env = false -> requests w' = requests w /\ clock w' = clock w).
Proof.
  intros Htimeout.
  destruct (Rules.spec_run _ _ w (Embedding.spec_generateEmbedding_any env text retries
                                    timeoutMs)) as (v & w' & Hrun & _).
  exists v, w'. split; [exact Hrun |].
  replace w' with (snd (generateEmbedding env text retries timeoutMs w))
    by (rewrite Hrun; reflexivity).
  clear Hrun. unfold generateEmbedding.
  destruct (Z.le_gt_cases retries 0) as [Hnone | Hsome].
  - replace (Z.to_nat retries) with 0%nat by lia. cbn [embeddingAttempts].
    destruct (generateMockEmbedding_world env 1536 w) as [-> ->].
    replace (Z.max retries 0) with 0%Z by lia.
    replace (Z.max (retries - 1) 0) with 0%Z by lia.
    split; [lia |]. split; [lia | auto].
  - destruct (embeddingAttempts_budget env text retries timeoutMs Htimeout
                (Z.to_nat retries) 1 w ltac:(lia)) as (Hr & Hc & Hkey).
    split; [exact Hr |]. split.
    + replace (Z.max retries 0) with (Z.of_nat (Z.to_nat retries)) by lia.
      replace (Z.max (retries - 1) 0) with (Z.of_nat (pred (Z.to_nat retries))) by lia.
      exact Hc.
    + intros Hno. rewrite (Hkey Hno). split; reflexivity.
Qed.

(** The defaults of [generateEmbedding] against a provider that rejects
    every request: at most three requests and 60 seconds. *)
Lemma generateEmbedding_budget_witness :
  exists v w',
    generateEmbedding Sample.envAllFail (VString "Qdrant stores vectors.") 3 10000
      Sample.world = (Ok v, w')
    /\ (requests Sample.world <= requests w' <= requests Sample.world + Z.to_nat 3)%nat
    /\ (clock w' <= clock Sample.world + Z.max 3 0 * 10000 + Z.max (3 - 1) 0 * 15000)%Z
    /\ (OPENAI_API_KEY Sample.envAllFail = false ->
        requests w' = requests Sample.world /\ clock w' = clock Sample.world).
Proof.
  apply (generateEmbedding_budget Sample.envAllFail (VString "Qdrant stores vectors.")
           3 10000 Sample.world).
  lia.
Defined.

End EmbeddingBudget.

(** * What [generateEmbedding] sends to the provider *)

Module EmbeddingInput.

Import DocumentProcessor.

Lemma noNewline_replaceNewlineRuns (inRun : bool) (s : string) :
  noNewline (Js.replaceNewlineRuns inRun s) = true.
Proof.
  revert inRun. induction s as [|c s IH]; intros inRun; [reflexivity |].
  cbn [Js.replaceNewlineRuns]. destruct (Js.isNewline c) eqn:Hc.
  - destruct inRun; [apply IH |]. cbn [noNewline]. rewrite IH. reflexivity.
  - cbn [noNewline]. rewrite Hc, IH. reflexivity.
Qed.

Lemma noNewline_take (n : nat) (s : string) :
  noNewline s = true -> noNewline (Js.take n s) = true.
Proof.
  revert s. induction n as [|n IH]; intros [|c s] Hs; try reflexivity.
  cbn [noNewline Js.take] in *. apply andb_true_iff in Hs as [Hc Hs].
  rewrite Hc, (IH s Hs). reflexivity.
Qed.

Lemma noNewline_drop (n : nat) (s : string) :
  noNewline s = true -> noNewline (Js.drop n s) = true.
Proof.
  revert s. induction n as [|n IH]; intros [|c s] Hs; try exact Hs.
  cbn [noNewline Js.drop] in *. apply andb_true_iff in Hs as [_ Hs]. exact (IH s Hs).
Qed.

(** [s.slice(0, 8000)] of a text without newline. *)
Lemma sanitized_slice (s : string) :
  noNewline s = true -> sanitized (Js.slice s 0 8000) = true.
Proof.
  intros Hs. unfold sanitized, Js.slice. apply andb_true_iff. split.
  - apply Z.leb_le.
    match goal with |- context [Js.take ?n ?t] => pose proof (JsFacts.length_take n t) as Hlen end.
    unfold Js.clampIndex in *. cbn [Z.ltb Z.compare] in *.
    destruct (8000 <? 0)%Z eqn:H8; [discriminate H8 |]. lia.
  - apply noNewline_take, noNewline_drop, Hs.
Qed.

Section Agreement.

Variable env : Env.
Variable f : nat -> string -> string -> Async (list JsNum).

Hypothesis agree :
  forall n input,
    sanitized input = true ->
    f n "text-embedding-ada-002" input
    = createEmbedding env n "text-embedding-ada-002" input.

Lemma randomVector_agree (n : nat) :
  randomVector (withCreateEmbedding f env) n = randomVector env n.
Proof. induction n as [|n IH]; [reflexivity |]. cbn [randomVector]. rewrite IH. reflexivity. Qed.

Lemma generateMockEmbedding_agree (n : nat) :
  generateMockEmbedding (withCreateEmbedding f env) n = generateMockEmbedding env n.
Proof. unfold generateMockEmbedding. rewrite randomVector_agree. reflexivity. Qed.

Lemma tryCatch_ext {A} (body body' : M A) (handler handler' : JsError -> M A) :
  (forall w, body w = body' w) ->
  (forall e w, handler e w = handler' e w) ->
  forall w, tryCatch body handler w = tryCatch body' handler' w.
Proof.
  intros Hbody Hhandler w. unfold tryCatch. rewrite Hbody.
  destruct (body' w) as [[a|e] w1]; [reflexivity | apply Hhandler].
Qed.

Lemma bind_ext {A B} (c : M A) (k k' : A -> M B) :
  (forall a w, k a w = k' a w) -> forall w, bind c k w = bind c k' w.
Proof.
  intros Hk w. unfold bind. destruct (c w) as [[a|e] w1]; [apply Hk | reflexivity].
Qed.

Lemma embeddingAttempts_agree (text : JsVal) (retries timeoutMs : Z) :
  forall remaining attempt w,
    embeddingAttempts (withCreateEmbedding f env) text retries timeoutMs remaining attempt w
    = embeddingAttempts env text retries timeoutMs remaining attempt w.
Proof.
  induction remaining as [|remaining IH]; intros attempt w; cbn [embeddingAttempts].
  - rewrite generateMockEmbedding_agree. reflexivity.
  - change (OPENAI_API_KEY (withCreateEmbedding f env)) with (OPENAI_API_KEY env).
    rewrite generateMockEmbedding_agree.
    apply tryCatch_ext.
    + intros w0. destruct (negb (OPENAI_API_KEY env)); [reflexivity |].
      apply bind_ext. intros trimmed w1. cbv zeta.
      apply bind_ext. intros n w2.
      change (createEmbedding (withCreateEmbedding f env)) with f.
      rewrite agree by apply sanitized_slice, noNewline_replaceNewlineRuns.
      reflexivity.
    + intros e w0. destruct (attempt =? retries)%Z; [reflexivity |].
      apply bind_ext. intros _ w1. apply IH.
Qed.

End Agreement.

(** X7. The provider is only ever asked for the model
    [text-embedding-ada-002] and with an input of at most 8000 characters
    that holds no newline: two providers that agree on such requests give
    the same run of [generateEmbedding], whatever they answer otherwise. *)
Theorem generateEmbedding_sends_sanitized_input (env : Env)
    (f : nat -> string -> string -> Async (list JsNum)) (text : JsVal)
    (retries timeoutMs : Z) (w : World) :
  (forall n input,
      sanitized input = true ->
      f n "text-embedding-ada-002" input
      = createEmbedding env n "text-embedding-ada-002" input) ->
  generateEmbedding (withCreateEmbedding f env) text retries timeoutMs w
  = generateEmbedding env text retries timeoutMs w.
Proof.
  intros Hagree. unfold generateEmbedding. apply embeddingAttempts_agree. exact Hagree.
Qed.

(** A provider that rejects another model, a longer input and an input
    with a newline behaves like the sample provider. *)
Lemma generateEmbedding_sends_sanitized_input_witness :
  generateEmbedding
    (withCreateEmbedding
       (fun n model input =>
          if sanitized input && String.eqb model "text-embedding-ada-002"
          then createEmbedding Sample.env n model input
          else Sample.settled 5 (Throw (Error "Invalid request")))
       Sample.env)
    (VString Sample.threeParagraphs) 3 10000 Sample.world
  = generateEmbedding Sample.env (VString Sample.threeParagraphs) 3 10000 Sample.world.
Proof.
  apply (generateEmbedding_sends_sanitized_input Sample.env
           (fun n model input =>
              if sanitized input && String.eqb model "text-embedding-ada-002"
              then createEmbedding Sample.env n model input
              else Sample.settled 5 (Throw (Error "Invalid request")))).
  intros n input Hinput. rewrite Hinput. reflexivity.
Defined.

End EmbeddingInput.

(** * Point ids and the way of a chunk through the vector index *)

Module PointFacts.

Import VectorStore.

Lemma matchesClasses_app (cs1 cs2 : list (ascii -> bool)) (s1 s2 : string) :
  matchesClasses cs1 s1 = true -> matchesClasses cs2 s2 = true ->
  matchesClasses (cs1 ++ cs2) (s1 ++ s2) = true.
Proof.
  revert s1. induction cs1 as [|cl cs1 IH]; intros [|c s1] H1 H2;
    try discriminate H1; [exact H2 |].
  simpl in *.
  apply andb_true_iff in H1 as [Hc H1]. rewrite Hc. exact (IH s1 H1 H2).
Qed.

Lemma isHex_hexDigit (n : nat) : isHex (hexDigit n) = true.
Proof. do 16 (destruct n as [|n]; [reflexivity |]). reflexivity. Qed.

Lemma matches_hex (width n : nat) :
  matchesClasses (repeat isHex width) (hex width n) = true.
Proof.
  revert n. induction width as [|width IH]; intros n; [reflexivity |].
  cbn [repeat hex]. rewrite repeat_cons.
  apply matchesClasses_app; [apply IH |].
  cbn [matchesClasses]. rewrite isHex_hexDigit. reflexivity.
Qed.

(** The ids [uuidv4()] hands out have the form the pattern asks for. *)
Lemma matches_uuidOf (n : nat) : matchesClasses uuidPattern (uuidOf n) = true.
Proof.
  change (matchesClasses
            ((repeat isHex 8 ++ [isDash] ++ repeat isHex 4 ++ [isDash]
              ++ [isVersion] ++ repeat isHex 3 ++ [isDash]
              ++ [isVariant] ++ repeat isHex 3 ++ [isDash]) ++ repeat isHex 12)
            ("00000000-0000-4000-8000-" ++ hex 12 n) = true).
  apply matchesClasses_app; [reflexivity | apply matches_hex].
Qed.

Lemma generatePointId_run (pointId : string) (w : World) :
  generatePointId pointId w
  = if matchesClasses uuidPattern pointId then (Ok pointId, w)
    else (Ok (uuidOf (uuids w)), setUuids (S (uuids w)) w).
Proof.
  unfold generatePointId, tryCatch.
  destruct (matchesClasses uuidPattern pointId); reflexivity.
Qed.

(** X8. [generatePointId] always returns an id of the UUID form Qdrant asks
    for: the given id when it has that form already (upper case digits
    included), and a fresh one otherwise, whatever the given id was. The
    ids made by [uuidv4()], those of the chunks, are returned as they
    are. *)
Theorem generatePointId_returns_uuid (pointId : string) (w : World) :
  exists qdrantId w',
    generatePointId pointId w = (Ok qdrantId, w')
    /\ matchesClasses uuidPattern qdrantId = true
    /\ (matchesClasses uuidPattern pointId = true -> qdrantId = pointId /\ w' = w)
    /\ (matchesClasses uuidPattern pointId = false ->
        qdrantId = uuidOf (uuids w) /\ w' = setUuids (S (uuids w)) w)
    /\ (forall n, generatePointId (uuidOf n) w = (Ok (uuidOf n), w)).
Proof.
  rewrite generatePointId_run.
  destruct (matchesClasses uuidPattern pointId) eqn:Hid; eexists _, _;
    (split; [reflexivity |]).
  - split; [exact Hid |]. split; [auto |]. split; [discriminate |].
    intros n. rewrite generatePointId_run, matches_uuidOf. reflexivity.
  - split; [apply matches_uuidOf |]. split; [discriminate |]. split; [auto |].
    intros n. rewrite generatePointId_run, matches_uuidOf. reflexivity.
Qed.

(** What [toPoint] makes of a document. *)
Lemma toPoint_run (doc : DocumentProcessor.EmbeddedChunk) (w : World) :
  exists qdrantId w',
    toPoint doc w
    = (Ok {| point_id := qdrantId;
             vector := DocumentProcessor.embedding doc;
             payload :=
               DocumentProcessor.metadata (DocumentProcessor.chunk doc)
               ∪ <["original_id" :=
                     VString (DocumentProcessor.id (DocumentProcessor.chunk doc))]>
                   (<["content" :=
                        VString (DocumentProcessor.content (DocumentProcessor.chunk doc))]>
                      ∅) |}, w')
    /\ matchesClasses uuidPattern qdrantId = true
    /\ requests w' = requests w
    /\ clock w' = clock w.
Proof.
  unfold toPoint. cbv zeta. unfold bind. rewrite generatePointId_run.
  destruct (matchesClasses uuidPattern _) eqn:Hid; eexists _, _;
    (split; [reflexivity |]); (split; [| split; reflexivity]);
    [exact Hid | apply matches_uuidOf].
Qed.

(** X9. A chunk that was written as a point and comes back as a hit is the
    chunk again: for a chunk with an id, whose metadata use neither
    [original_id] nor [content] as a key (those of [indexDocument] do
    not), [toSearchResult] recovers the id, the text and every metadata
    entry from the payload [toPoint] wrote, and [toContext] names the
    source file. *)
Theorem toPoint_toSearchResult_round_trip (doc : DocumentProcessor.EmbeddedChunk)
    (hitScore : JsNum) (w w1 : World) :
  let c := DocumentProcessor.chunk doc in
  DocumentProcessor.id c <> "" ->
  DocumentProcessor.metadata c !! "original_id" = None ->
  DocumentProcessor.metadata c !! "content" = None ->
  exists p w' r,
    toPoint doc w = (Ok p, w')
    /\ toSearchResult {| hit_id := point_id p; hit_score := hitScore;
                         hit_payload := Some (payload p) |} w1 = (Ok r, w1)
    /\ id r = VString (DocumentProcessor.id c)
    /\ content r = VString (DocumentProcessor.content c)
    /\ score r = hitScore
    /\ (forall k, k <> "content" -> k <> "original_id" ->
                  metadata r !! k = DocumentProcessor.metadata c !! k)
    /\ RagService.source (RagService.toContext r)
       = orElse (default VUndefined (DocumentProcessor.metadata c !! "source_file"))
                (VString "Unknown").
Proof.
  intros c Hid Horiginal Hcontent.
  destruct (toPoint_run doc w) as (qdrantId & w' & Hrun & _).
  fold c in Hrun. rewrite Hrun.
  set (p := DocumentProcessor.metadata c
            ∪ <["original_id" := VString (DocumentProcessor.id c)]>
                (<["content" := VString (DocumentProcessor.content c)]> ∅)).
  assert (Hp : forall k, k <> "content" -> k <> "original_id" ->
                         p !! k = DocumentProcessor.metadata c !! k).
  { intros k Hk1 Hk2. subst p.
    destruct (DocumentProcessor.metadata c !! k) as [v|] eqn:Hk.
    - apply lookup_union_Some_l. exact Hk.
    - apply lookup_union_None. split; [exact Hk |].
      rewrite !lookup_insert_ne by congruence. apply lookup_empty. }
  assert (Hpo : p !! "original_id" = Some (VString (DocumentProcessor.id c))).
  { subst p. rewrite lookup_union_r by exact Horiginal. apply lookup_insert_eq. }
  assert (Hpc : p !! "content" = Some (VString (DocumentProcessor.content c))).
  { subst p. rewrite lookup_union_r by exact Hcontent.
    rewrite lookup_insert_ne by discriminate. apply lookup_insert_eq. }
  eexists _, w', _. split; [reflexivity |].
  unfold toSearchResult. cbn [hit_payload hit_id hit_score point_id payload].
  split; [reflexivity |]. cbn [id content score metadata].
  rewrite Hpo, Hpc. cbn [default from_option Datatypes.id].
  split.
  { unfold orElse, truthy. destruct (String.eqb_spec (DocumentProcessor.id c) "");
      [contradiction | reflexivity]. }
  split; [reflexivity |]. split; [reflexivity |]. split.
  - intros k Hk1 Hk2. rewrite lookup_insert_ne by congruence. apply Hp; assumption.
  - unfold RagService.toContext. cbn [RagService.source metadata].
    rewrite lookup_insert_ne by discriminate. rewrite Hp by discriminate. reflexivity.
Qed.

(** A chunk as [indexDocument] builds it. *)
Lemma toPoint_toSearchResult_round_trip_witness :
  exists p w' r,
    toPoint Sample.embeddedChunk Sample.world = (Ok p, w')
    /\ toSearchResult {| hit_id := point_id p; hit_score := Num 1;
                         hit_payload := Some (payload p) |} Sample.world
       = (Ok r, Sample.world)
    /\ id r = VString (uuidOf 1)
    /\ content r = VString "Qdrant stores vectors."
    /\ RagService.source (RagService.toContext r) = VString "notes.pdf".
Proof.
  destruct (toPoint_toSearchResult_round_trip Sample.embeddedChunk (Num 1)
              Sample.world Sample.world)
    as (p & w' & r & Hpoint & Hhit & Hid & Hcontent & _ & _ & Hsource).
  - discriminate.
  - reflexivity.
  - reflexivity.
  - exists p, w', r. repeat (split; [assumption |]). exact Hsource.
Defined.

End PointFacts.

(** * What [addDocuments] reports *)

Module StoreFacts.

Import VectorStore.





End StoreFacts.

(** * What [search] passes on *)

Module SearchFacts.

Import VectorStore.

Lemma mapM_toSearchResult_ok (hits : list ScoredPoint) (w : World) :
  Forall (fun h => hit_payload h <> None) hits ->
  exists results,
    mapM toSearchResult hits w = (Ok results, w)
    /\ map score results = map hit_score hits.
Proof.
  induction 1 as [|h hits Hh _ IH]; cbn [mapM].
  - exists []. split; reflexivity.
  - destruct IH as (results & Hrun & Hscores).
    unfold bind at 1. unfold toSearchResult at 1.
    destruct (hit_payload h) as [p|]; [| contradiction].
    cbn [ret]. unfold bind at 1. rewrite Hrun.
    eexists. split; [reflexivity |]. cbn [map score]. now rewrite Hscores.
Qed.

(** X11. [search] has no limit and no threshold of its own: [limit] and
    [minScore] go to Qdrant with the lookup, and when the collection is
    listed and the lookup is answered before the timer, every hit of the
    answer comes back, in the order of the answer and with its score. Two
    requests are made. *)
Theorem search_returns_every_hit (env : Env) (collectionName : string)
    (queryEmbedding : list JsNum) (limit : Z) (minScore : JsNum) (timeoutMs : Z)
    (w : World) (collections : list string) (hits : list ScoredPoint) :
  let listing := qdrant_getCollections env (requests w) in
  let lookup :=
    qdrant_search env (S (requests w)) collectionName queryEmbedding limit minScore in
  outcome listing = Ok collections ->
  existsb (String.eqb collectionName) collections = true ->
  (latency lookup < timeoutMs)%Z ->
  outcome lookup = Ok hits ->
  Forall (fun h => hit_payload h <> None) hits ->
  exists results w',
    search env collectionName queryEmbedding limit minScore timeoutMs w
    = (Ok results, w')
    /\ length results = length hits
    /\ map score results = map hit_score hits
    /\ requests w' = (requests w + 2)%nat.
Proof.
  intros listing lookup Hlisting Hexists Hlate Hlookup Hpayloads.
  unfold search, tryCatch. unfold bind at 1. cbn [nextRequest].
  unfold bind at 1. unfold await at 1. cbn [fst snd]. fold listing.
  rewrite Hlisting, Hexists. cbn [negb].
  unfold bind at 1. cbn [nextRequest]. unfold bind at 1.
  cbn [requests setRequests setClock]. fold lookup.
  unfold race. apply Z.ltb_lt in Hlate. rewrite Hlate, Hlookup.
  match goal with
  | |- context [mapM toSearchResult hits ?w1] =>
      destruct (mapM_toSearchResult_ok hits w1 Hpayloads) as (results & -> & Hscores)
  end.
  eexists _, _. split; [reflexivity |].
  split; [rewrite <- (length_map score results), Hscores; apply length_map |].
  split; [exact Hscores |]. cbn. lia.
Qed.

(** A lookup with [limit = 0] and a threshold above the score of the hit,
    in the sample process that holds one chunk. *)
Lemma search_returns_every_hit_witness :
  exists results w',
    search Sample.envIndexed "global_documents" [] 0 (Num 1) 30000 Sample.world
    = (Ok results, w')
    /\ length results = 1
    /\ map score results = [Num (9 / 10)%R]
    /\ requests w' = 2.
Proof.
  apply (search_returns_every_hit Sample.envIndexed "global_documents" [] 0 (Num 1) 30000
           Sample.world ["global_documents"] [Sample.hit]).
  - reflexivity.
  - reflexivity.
  - reflexivity.
  - reflexivity.
  - repeat constructor. discriminate.
Defined.

End SearchFacts.

(** * Text extraction *)

Module ExtractFacts.

Import DocumentProcessor.

(** What [extractTextFromFile] answers for the file types that are read. *)
Lemma extractTextFromFile_run (env : Env) (filePath fileType : string) (w : World) :
  fileType = "pdf" \/ fileType = "docx" ->
  extractTextFromFile env filePath fileType w
  = (Ok match fs w !! filePath with
        | Some data =>
            match (if String.eqb fileType "pdf" then pdfParse env else extractRawText env)
                    data with
            | Ok text => text
            | Throw _ =>
                "[Error extracting content from file: " ++ path_basename env filePath ++ "]"
            end
        | None =>
            "[Error extracting content from file: " ++ path_basename env filePath ++ "]"
        end, w).
Proof.
  intros [-> | ->]; unfold extractTextFromFile, tryCatch;
    cbn [String.eqb Ascii.eqb Bool.eqb]; unfold bind, readFileAsync;
    destruct (fs w !! filePath) as [data|]; try reflexivity.
  - destruct (pdfParse env data); reflexivity.
  - destruct (extractRawText env data); reflexivity.
Qed.

Lemma append_assoc (s t u : string) : s ++ t ++ u = (s ++ t) ++ u.
Proof.
  induction s as [|a s IH]; [reflexivity |].
  change (String a (s ++ t ++ u) = String a ((s ++ t) ++ u)). now rewrite IH.
Qed.

Lemma trimEnd_last (s : string) (c : ascii) :
  Js.isWhiteSpace c = false ->
  Js.trimEnd (s ++ String c EmptyString) = s ++ String c EmptyString.
Proof.
  intros Hc. induction s as [|a s IH].
  - change (Js.trimEnd (String c EmptyString) = String c EmptyString).
    cbn [Js.trimEnd]. rewrite Hc. reflexivity.
  - change (Js.trimEnd (String a (s ++ String c EmptyString))
            = String a (s ++ String c EmptyString)).
    cbn [Js.trimEnd]. rewrite IH. destruct s; reflexivity.
Qed.

Lemma In_append (c : ascii) (s t : string) :
  In c (list_ascii_of_string (s ++ t)) ->
  In c (list_ascii_of_string s) \/ In c (list_ascii_of_string t).
Proof.
  induction s as [|a s IH]; [intros Hin; right; exact Hin |].
  change (a = c \/ In c (list_ascii_of_string (s ++ t)) ->
          (a = c \/ In c (list_ascii_of_string s)) \/ In c (list_ascii_of_string t)).
  intros [-> | Hin]; [auto | destruct (IH Hin); auto].
Qed.

(** The error placeholder is one paragraph that [trim] leaves alone. *)
Lemma placeholder_shape (name : string) :
  (forall c, In c (list_ascii_of_string name) -> Js.isNewline c = false) ->
  let text := "[Error extracting content from file: " ++ name ++ "]" in
  (forall c, In c (list_ascii_of_string text) -> Js.isNewline c = false)
  /\ Js.trim text = text.
Proof.
  intros Hname text. split.
  - intros c Hc. subst text.
    apply In_append in Hc as [Hc | Hc];
      [| apply In_append in Hc as [Hc | Hc]; [exact (Hname c Hc) |]];
      cbn in Hc; repeat (destruct Hc as [<- | Hc]; [reflexivity |]); contradiction.
  - subst text. unfold Js.trim.
    change (Js.trimStart ("[Error extracting content from file: " ++ name ++ "]"))
      with ("[Error extracting content from file: " ++ name ++ "]").
    rewrite (append_assoc "[Error extracting content from file: " name "]").
    apply trimEnd_last. reflexivity.
Qed.

(** A text of one paragraph goes through [processFile] as one chunk. *)
Lemma processFile_one_paragraph (env : Env) (filePath fileType text : string)
    (meta : gmap string JsVal) (maxChunks : Z) (w : World) :
  extractTextFromFile env filePath fileType w = (Ok text, w) ->
  (forall c, In c (list_ascii_of_string text) -> Js.isNewline c = false) ->
  Js.trim text <> EmptyString ->
  (1 <= maxChunks)%Z ->
  exists d w',
    processFile env filePath fileType meta maxChunks w = (Ok [d], w')
    /\ chunk d = {| id := uuidOf (uuids w); content := Js.trim text; metadata := meta |}.
Proof.
  intros Hextract Hnl Htrim Hmax.
  set (c := {| id := uuidOf (uuids w); content := Js.trim text; metadata := meta |}).
  assert (Hlimit : limitChunks [c] maxChunks = [c]).
  { unfold limitChunks. cbn [length].
    destruct (Z.gtb_spec (Z.of_nat 1) maxChunks); [lia | reflexivity]. }
  destruct (Rules.spec_run _ _ (setUuids (S (uuids w)) w)
              (ProcessFileFacts.spec_embedBatches env [c] 1 0 []
                 ltac:(lia) ltac:(cbn [length]; lia)))
    as (docs & w' & Hembed & Hdocs & _).
  cbn [map app Z.to_nat skipn] in Hdocs.
  destruct docs as [|d [|d' docs]]; try discriminate Hdocs.
  injection Hdocs as Hd.
  exists d, w'. split; [| exact Hd].
  unfold processFile, tryCatch. unfold bind at 1. rewrite Hextract.
  unfold bind at 1.
  rewrite (ChunkerShape.single_paragraph_run text 1000 200 meta w Hnl Htrim).
  cbv zeta. fold c. rewrite Hlimit. cbn [length]. rewrite Hembed. reflexivity.
Qed.

(** X12. A [pdf] or [docx] upload that is missing, or that its parser rejects,
    is processed all the same: [processFile] returns one chunk, and the
    text of the chunk is the placeholder that names the file. (The name
    is assumed to hold no newline.) *)
Theorem processFile_indexes_error_placeholder (env : Env) (filePath fileType : string)
    (meta : gmap string JsVal) (maxChunks : Z) (w : World) :
  fileType = "pdf" \/ fileType = "docx" ->
  match fs w !! filePath with
  | Some data =>
      exists e,
        (if String.eqb fileType "pdf" then pdfParse env else extractRawText env) data
        = Throw e
  | None => True
  end ->
  (forall c, In c (list_ascii_of_string (path_basename env filePath)) ->
             Js.isNewline c = false) ->
  (1 <= maxChunks)%Z ->
  exists d w',
    processFile env filePath fileType meta maxChunks w = (Ok [d], w')
    /\ content (chunk d)
       = "[Error extracting content from file: " ++ path_basename env filePath ++ "]"
    /\ embeddingError d = None.
Proof.
  intros Htype Hfault Hname Hmax.
  destruct (placeholder_shape (path_basename env filePath) Hname) as [Hnl Htrim].
  cbv zeta in Hnl, Htrim.
  assert (Hextract :
            extractTextFromFile env filePath fileType w
            = (Ok ("[Error extracting content from file: "
                   ++ path_basename env filePath ++ "]"), w)).
  { rewrite (extractTextFromFile_run env filePath fileType w Htype).
    destruct (fs w !! filePath) as [data|]; [| reflexivity].
    destruct Hfault as [e ->]. reflexivity. }
  destruct (processFile_one_paragraph env filePath fileType _ meta maxChunks w
              Hextract Hnl ltac:(rewrite Htrim; discriminate) Hmax)
    as (d & w' & Hrun & Hd).
  exists d, w'. split; [exact Hrun |]. split.
  - rewrite Hd. cbn [content]. exact Htrim.
  - destruct (ProcessFileShape.processFile_clean env filePath fileType meta maxChunks w)
      as (docs & w'' & Hrun' & Hclean).
    rewrite Hrun in Hrun'. injection Hrun' as <- <-.
    inversion Hclean as [|? ? [Hnone _] _]; subst. exact Hnone.
Qed.

(** An upload the parser rejects, and one that is not there. *)
Lemma processFile_indexes_error_placeholder_witness :
  (exists d w',
      processFile Sample.envAllFail "uploads/document-1.pdf" "pdf" ∅ 25 Sample.world
      = (Ok [d], w')
      /\ content (chunk d) = "[Error extracting content from file: document-1.pdf]"
      /\ embeddingError d = None)
  /\ (exists d w',
         processFile Sample.env "uploads/missing.docx" "docx" ∅ 25 Sample.world
         = (Ok [d], w')
         /\ content (chunk d) = "[Error extracting content from file: missing.docx]"
         /\ embeddingError d = None).
Proof.
  split.
  - apply (processFile_indexes_error_placeholder Sample.envAllFail
             "uploads/document-1.pdf" "pdf" ∅ 25 Sample.world).
    + left. reflexivity.
    + exists (Error "Invalid PDF structure"). reflexivity.
    + intros c Hc. cbn in Hc.
      repeat (destruct Hc as [<- | Hc]; [reflexivity |]). contradiction.
    + lia.
  - apply (processFile_indexes_error_placeholder Sample.env
             "uploads/missing.docx" "docx" ∅ 25 Sample.world).
    + right. reflexivity.
    + exact I.
    + intros c Hc. cbn in Hc.
      repeat (destruct Hc as [<- | Hc]; [reflexivity |]). contradiction.
    + lia.
Defined.

End ExtractFacts.

(** * The answers of the content generator *)

Module GeneratorFacts.

Import ContentGenerator.

Lemma arraySlice_0 {A} (xs : list A) (n : Z) :
  (0 <= n)%Z -> Js.arraySlice xs 0 n = firstn (Z.to_nat n) xs.
Proof.
  intros Hn. unfold Js.arraySlice, Js.clampIndex.
  destruct (Z.ltb_spec 0 0); [lia |]. destruct (Z.ltb_spec n 0); [lia |].
  rewrite (Z.min_l 0) by lia. change (skipn (Z.to_nat 0) xs) with xs.
  destruct (Z.le_gt_cases n (Z.of_nat (length xs))).
  - f_equal. lia.
  - rewrite !firstn_all2 by lia. reflexivity.
Qed.

(** [mapM contextSample] reads the contexts and leaves the world alone;
    it throws exactly when a context carries no text. *)
Lemma mapM_contextSample_run (contexts : list VectorStore.SearchResult) (w : World) :
  exists r,
    mapM contextSample contexts w = (r, w)
    /\ (Forall (fun c => exists s, VectorStore.content c = VString s) contexts ->
        exists samples, r = Ok samples)
    /\ (Exists (fun c => forall s, VectorStore.content c <> VString s) contexts ->
        exists e, r = Throw e).
Proof.
  induction contexts as [|c contexts IH]; cbn [mapM].
  - exists (Ok []). split; [reflexivity |]. split; [eauto |]. intros H; inversion H.
  - destruct IH as (r & Hrun & Hok & Hthrow). unfold bind at 1.
    unfold contextSample at 1.
    destruct (VectorStore.content c) as [| |b|z|s|] eqn:Hc;
      try (eexists; split; [reflexivity |]; split;
           [intros H; inversion H as [|? ? [s Hs] _]; congruence | eauto]).
    cbn [ret]. unfold bind at 1. rewrite Hrun.
    destruct r as [samples|e]; (eexists; split; [reflexivity |]); split.
    + eauto.
    + intros H. inversion H as [? ? Hhead | ? ? Htail]; subst;
        [exfalso; exact (Hhead s Hc) | destruct (Hthrow Htail); discriminate].
    + intros H. inversion H as [|? ? _ Htail]; subst.
      destruct (Hok Htail); discriminate.
    + eauto.
Qed.

(** The mock answer reads the first two contexts, and nothing else. *)
Lemma _generateMockResponse_run (query : JsVal)
    (contexts : list VectorStore.SearchResult) (w : World) :
  exists r,
    _generateMockResponse query contexts w = (r, w)
    /\ (Forall (fun c => exists s, VectorStore.content c = VString s)
          (firstn 2 contexts) ->
        exists response, r = Ok response)
    /\ (Exists (fun c => forall s, VectorStore.content c <> VString s)
          (firstn 2 contexts) ->
        exists e, r = Throw e)
    /\ (contexts = [] ->
        r = Ok "I don't have enough information to answer this question as no context was provided.").
Proof.
  unfold _generateMockResponse. destruct contexts as [|c contexts].
  - eexists. split; [reflexivity |]. split; [eauto |].
    split; [intros H; inversion H | reflexivity].
  - cbn [length Nat.eqb]. rewrite arraySlice_0 by lia.
    change (Z.to_nat 2) with 2.
    destruct (mapM_contextSample_run (firstn 2 (c :: contexts)) w)
      as (r & Hrun & Hok & Hthrow).
    unfold bind. rewrite Hrun.
    destruct r as [samples|e]; (eexists; split; [reflexivity |]); split.
    + eauto.
    + split; [| discriminate]. intros H. destruct (Hthrow H). discriminate.
    + intros H. destruct (Hok H). discriminate.
    + split; [eauto | discriminate].
Qed.

(** One run of [generateResponse]: the trimmed answer of the provider, or
    the mock answer when there is no key or the request fails. *)
Lemma generateResponse_run (env : Env) (query : JsVal)
    (contexts : list VectorStore.SearchResult) (w : World) :
  exists w',
    sameStore w w'
    /\ (requests w <= requests w' <= requests w + 1)%nat
    /\ (OPENAI_API_KEY env = false -> w' = w)
    /\ ((exists n model messages temperature maxTokens answer,
            OPENAI_API_KEY env = true
            /\ (latency (createChatCompletion env n model messages temperature maxTokens)
                < 30000)%Z
            /\ outcome (createChatCompletion env n model messages temperature maxTokens)
               = Ok answer
            /\ generateResponse env query contexts w = (Ok (Js.trim answer), w'))
        \/ (generateResponse env query contexts w
            = _generateMockResponse query contexts w'
            /\ (OPENAI_API_KEY env = false
                \/ exists n model messages temperature maxTokens,
                     requestFails 30000
                       (createChatCompletion env n model messages temperature maxTokens)))).
Proof.
  remember (generateResponse env query contexts w) as run eqn:Hrun.
  unfold generateResponse, tryCatch in Hrun.
  destruct (negb (OPENAI_API_KEY env)) eqn:Hkey;
    [apply negb_true_iff in Hkey | apply negb_false_iff in Hkey]; cbv iota in Hrun.
  - exists w. split; [repeat split |]. split; [lia |]. split; [reflexivity |].
    right. split; [| left; exact Hkey].
    destruct (_generateMockResponse_run query contexts w) as (r & Hr & _).
    rewrite Hr in Hrun. rewrite Hr. destruct r; [exact Hrun |].
    rewrite Hr in Hrun. exact Hrun.
  - cbv zeta in Hrun. unfold bind at 1 in Hrun. cbn [nextRequest] in Hrun.
    unfold bind at 1 in Hrun. unfold race in Hrun.
    match type of Hrun with
    | context [(latency ?p <? 30000)%Z] => set (completion := p) in *
    end.
    set (w1 := setRequests (S (requests w)) w) in *.
    destruct (Z.ltb_spec (latency completion) 30000) as [Hlate | Hlate].
    + exists (setClock (clock w1 + latency completion) w1).
      split; [repeat split |]. split; [cbn [requests setClock setRequests w1]; lia |].
      split; [congruence |].
      destruct (outcome completion) as [answer|e] eqn:Hanswer.
      * left. exists (requests w). eexists _, _, _, _, answer.
        split; [exact Hkey |]. split; [exact Hlate |]. split; [exact Hanswer | exact Hrun].
      * right. split; [exact Hrun |]. right.
        exists (requests w). eexists _, _, _, _. right. exists e. exact Hanswer.
    + exists (setClock (clock w1 + 30000) w1).
      split; [repeat split |]. split; [cbn [requests setClock setRequests w1]; lia |].
      split; [congruence |]. right. split; [exact Hrun |]. right.
      exists (requests w). eexists _, _, _, _. left. exact Hlate.
Qed.

(** Without provider and without contexts the answer is the fixed
    sentence. *)
Lemma generateResponse_no_contexts (env : Env) (query : JsVal) (w : World) :
  OPENAI_API_KEY env = false
  \/ (forall n model messages temperature maxTokens,
         requestFails 30000
           (createChatCompletion env n model messages temperature maxTokens)) ->
  exists w',
    generateResponse env query [] w
    = (Ok "I don't have enough information to answer this question as no context was provided.",
       w').
Proof.
  intros Hprovider.
  destruct (generateResponse_run env query [] w)
    as (w' & _ & _ & Hkey
        & [(n & model & messages & t & m & answer & Hk & Hlate & Hanswer & Hrun)
          | (Hrun & _)]).
  - destruct Hprovider as [Hno | Hfail]; [congruence |].
    destruct (Hfail n model messages t m) as [Hl | [e He]]; [lia | congruence].
  - exists w'. rewrite Hrun. reflexivity.
Qed.

(** X13. [generateResponse] sends at most one request, and none without a
    key. It answers whenever the first two contexts carry a text; later
    contexts are never read by the mock answer. When the provider is not
    available, because there is no key or because every request fails,
    the answer for an empty list of contexts is the fixed sentence. *)
Theorem generateResponse_answers (env : Env) (query : JsVal)
    (contexts : list VectorStore.SearchResult) (w : World) :
  Forall (fun c => exists s, VectorStore.content c = VString s) (firstn 2 contexts) ->
  exists response w',
    generateResponse env query contexts w = (Ok response, w')
    /\ sameStore w w'
    /\ (requests w <= requests w' <= requests w + 1)%nat
    /\ (OPENAI_API_KEY env = false -> requests w' = requests w)
    /\ (contexts = [] ->
        OPENAI_API_KEY env = false
        \/ (forall n model messages temperature maxTokens,
               requestFails 30000
                 (createChatCompletion env n model messages temperature maxTokens)) ->
        response
        = "I don't have enough information to answer this question as no context was provided.").
Proof.
  intros Htexts.
  destruct (generateResponse_run env query contexts w)
    as (w' & Hstore & Hrequests & Hkey
        & [(n & model & messages & t & m & answer & Hk & Hlate & Hanswer & Hrun)
          | (Hrun & _)]).
  - exists (Js.trim answer), w'. split; [exact Hrun |]. split; [exact Hstore |].
    split; [exact Hrequests |]. split; [intros Hno; now rewrite (Hkey Hno) |].
    intros _ [Hno | Hfail]; [congruence |].
    destruct (Hfail n model messages t m) as [Hl | [e He]]; [lia | congruence].
  - destruct (_generateMockResponse_run query contexts w')
      as (r & Hmock & Hok & _ & Hempty).
    destruct (Hok Htexts) as [response ->].
    exists response, w'. split; [now rewrite Hrun |]. split; [exact Hstore |].
    split; [exact Hrequests |]. split; [intros Hno; now rewrite (Hkey Hno) |].
    intros Hnone _. specialize (Hempty Hnone). congruence.
Qed.

(** No contexts and no key, and two contexts with a provider that rejects
    every request. *)
Lemma generateResponse_answers_witness :
  (exists w',
      generateResponse Sample.envNoKey (VString "What is Qdrant?") [] Sample.world
      = (Ok "I don't have enough information to answer this question as no context was provided.",
         w'))
  /\ (exists response w',
         generateResponse Sample.envAllFail (VString "What is Qdrant?")
           [Sample.searchResult; Sample.searchResult] Sample.world
         = (Ok response, w')).
Proof.
  split.
  - destruct (generateResponse_answers Sample.envNoKey (VString "What is Qdrant?") []
                Sample.world ltac:(constructor))
      as (response & w' & Hrun & _ & _ & _ & Hfixed).
    exists w'. rewrite <- (Hfixed eq_refl (or_introl eq_refl)). exact Hrun.
  - destruct (generateResponse_answers Sample.envAllFail (VString "What is Qdrant?")
                [Sample.searchResult; Sample.searchResult] Sample.world)
      as (response & w' & Hrun & _).
    + repeat constructor; exists "Qdrant stores vectors. It is fast."; reflexivity.
    + exists response, w'. exact Hrun.
Defined.

(** X14. Without provider, [generateResponse] throws as soon as one of the
    first two contexts carries no text (a hit whose payload has no
    [content], say): the mock answer splits the content of each. The
    world is left as it was. *)
Theorem generateResponse_throws_without_text (env : Env) (query : JsVal)
    (contexts : list VectorStore.SearchResult) (w : World) :
  OPENAI_API_KEY env = false ->
  Exists (fun c => forall s, VectorStore.content c <> VString s) (firstn 2 contexts) ->
  exists e, generateResponse env query contexts w = (Throw e, w).
Proof.
  intros Hno Hmissing.
  destruct (generateResponse_run env query contexts w)
    as (w' & _ & _ & Hkey & [(n & model & messages & t & m & answer & Hk & _) | (Hrun & _)]);
    [congruence |].
  rewrite (Hkey Hno) in Hrun.
  destruct (_generateMockResponse_run query contexts w) as (r & Hmock & _ & Hthrow & _).
  destruct (Hthrow Hmissing) as [e ->]. exists e. now rewrite Hrun.
Qed.

(** A hit without [content] behind one with. *)
Lemma generateResponse_throws_without_text_witness :
  exists e,
    generateResponse Sample.envNoKey (VString "What is Qdrant?")
      [Sample.searchResult; Sample.searchResultNoText] Sample.world
    = (Throw e, Sample.world).
Proof.
  apply (generateResponse_throws_without_text Sample.envNoKey (VString "What is Qdrant?")
           [Sample.searchResult; Sample.searchResultNoText] Sample.world).
  - reflexivity.
  - right. left. intros s. discriminate.
Defined.

End GeneratorFacts.

(** * The chat service *)

Module ChatFacts.

Import RagService.

(** One run of [search]: at most two requests, nothing stored, and no
    result when the collection is not listed. *)
Lemma search_run (env : Env) (collectionName : string) (queryEmbedding : list JsNum)
    (limit : Z) (minScore : JsNum) (timeoutMs : Z) (w : World) :
  exists results w',
    VectorStore.search env collectionName queryEmbedding limit minScore timeoutMs w
    = (Ok results, w')
    /\ sameStore w w'
    /\ (requests w <= requests w' <= requests w + 2)%nat
    /\ (match outcome (qdrant_getCollections env (requests w)) with
        | Ok collections => existsb (String.eqb collectionName) collections = false
        | Throw _ => True
        end -> results = []).
Proof.
  unfold VectorStore.search, tryCatch. unfold bind at 1. cbn [nextRequest].
  unfold bind at 1. unfold await at 1. cbn [fst snd].
  destruct (outcome (qdrant_getCollections env (requests w))) as [collections|e].
  - destruct (existsb (String.eqb collectionName) collections); cbn [negb].
    + unfold bind at 1. cbn [nextRequest]. unfold bind at 1. unfold race.
      match goal with
      | |- context [(latency ?p <? timeoutMs)%Z] =>
          destruct (latency p <? timeoutMs)%Z; [destruct (outcome p) as [hits|e] |]
      end.
      * match goal with
        | |- context [mapM VectorStore.toSearchResult hits ?w1] =>
            destruct (VectorStoreFacts.mapM_toSearchResult hits w1) as (r & -> & _)
        end.
        destruct r; eexists _, _; (split; [reflexivity |]);
          (split; [repeat split |]); (split; [cbn; lia | discriminate]).
      * eexists _, _. split; [reflexivity |]. split; [repeat split |].
        split; [cbn; lia | discriminate].
      * eexists _, _. split; [reflexivity |]. split; [repeat split |].
        split; [cbn; lia | discriminate].
    + eexists _, _. split; [reflexivity |]. split; [repeat split |].
      split; [cbn; lia | reflexivity].
  - eexists _, _. split; [reflexivity |]. split; [repeat split |].
    split; [cbn; lia | reflexivity].
Qed.

(** One run of [generateChatResponse], step by step. *)
Lemma generateChatResponse_run (env : Env) (query : JsVal) (w : World) :
  exists queryEmbedding w1 searchResults w2 generated w',
    DocumentProcessor.generateEmbedding env query 3 10000 w = (Ok queryEmbedding, w1)
    /\ VectorStore.search env GLOBAL_COLLECTION_NAME queryEmbedding 5 (Num (7 / 10)%R)
         30000 w1 = (Ok searchResults, w2)
    /\ ContentGenerator.generateResponse env query searchResults w2 = (generated, w')
    /\ generateChatResponse env query w
       = (Ok match generated with
             | Ok response => ChatOk query response (map toContext searchResults)
             | Throw error =>
                 ChatFailed query (message error)
                   "I'm sorry, I encountered an error processing your query. Please try again."
             end, w')
    /\ sameStore w w'
    /\ (requests w <= requests w1 <= requests w + 3)%nat
    /\ (OPENAI_API_KEY env = false -> requests w1 = requests w)
    /\ (requests w1 <= requests w2 <= requests w1 + 2)%nat
    /\ (requests w2 <= requests w' <= requests w2 + 1)%nat
    /\ (match outcome (qdrant_getCollections env (requests w1)) with
        | Ok collections => existsb (String.eqb GLOBAL_COLLECTION_NAME) collections = false
        | Throw _ => True
        end -> searchResults = []).
Proof.
  destruct (Rules.spec_run _ _ w (Embedding.spec_generateEmbedding_any env query 3 10000))
    as (queryEmbedding & w1 & Hembed & _ & Hs1).
  destruct (EmbeddingBudget.embeddingAttempts_budget env query 3 10000 ltac:(lia)
              3 1 w ltac:(lia)) as (Hr1 & _ & Hkey1).
  change (DocumentProcessor.embeddingAttempts env query 3 10000 3 1 w)
    with (DocumentProcessor.generateEmbedding env query 3 10000 w) in Hr1, Hkey1.
  rewrite Hembed in Hr1, Hkey1. cbn [snd] in Hr1, Hkey1.
  destruct (search_run env GLOBAL_COLLECTION_NAME queryEmbedding 5 (Num (7 / 10)%R)
              30000 w1) as (searchResults & w2 & Hsearch & Hs2 & Hr2 & Hnone).
  destruct (GeneratorFacts.generateResponse_run env query searchResults w2)
    as (w' & Hs3 & Hr3 & _ & Hgenerate).
  assert (Hrun : exists generated,
             ContentGenerator.generateResponse env query searchResults w2
             = (generated, w')).
  { destruct Hgenerate as [(n & model & messages & t & m & answer & _ & _ & _ & ->)
                          | [-> _]]; [eauto |].
    destruct (GeneratorFacts._generateMockResponse_run query searchResults w')
      as (r & -> & _). eauto. }
  destruct Hrun as [generated Hrun].
  exists queryEmbedding, w1, searchResults, w2, generated, w'.
  split; [exact Hembed |]. split; [exact Hsearch |]. split; [exact Hrun |].
  split.
  { unfold generateChatResponse, tryCatch at 1. unfold bind at 1. rewrite Hembed.
    unfold bind at 1. unfold tryCatch at 1. rewrite Hsearch.
    unfold bind at 1. rewrite Hrun. destruct generated; reflexivity. }
  split.
  { eapply Rules.sameStore_trans; [| exact Hs3].
    eapply Rules.sameStore_trans; eassumption. }
  split; [exact Hr1 |].
  split; [intros Hno; rewrite (Hkey1 Hno); reflexivity |].
  split; [exact Hr2 |]. split; [exact Hr3 | exact Hnone].
Qed.

(** X15. [generateChatResponse] always comes back with an answer that repeats
    the query; a failure carries the apology. It stores nothing: uploads,
    registry and connection flag are as before. It sends at most six
    requests: three for the embedding of the query, two for the lookup
    and one for the completion. *)
Theorem generateChatResponse_is_read_only (env : Env) (query : JsVal) (w : World) :
  exists result w',
    generateChatResponse env query w = (Ok result, w')
    /\ sameStore w w'
    /\ (requests w <= requests w' <= requests w + 6)%nat
    /\ match result with
       | ChatOk q _ contexts => q = query
       | ChatFailed q _ response =>
           q = query
           /\ response
              = "I'm sorry, I encountered an error processing your query. Please try again."
       end.
Proof.
  destruct (generateChatResponse_run env query w)
    as (queryEmbedding & w1 & searchResults & w2 & generated & w'
        & _ & _ & _ & Hrun & Hstore & Hr1 & _ & Hr2 & Hr3 & _).
  eexists _, w'. split; [exact Hrun |]. split; [exact Hstore |].
  split; [lia |]. destruct generated; [reflexivity | split; reflexivity].
Qed.

(** X16. Before anything is indexed, and without provider: when the global
    collection is not among those Qdrant lists (or Qdrant cannot be
    asked), and there is no key or every completion request fails, the
    answer to every query is the fixed sentence, with no contexts. *)
Theorem generateChatResponse_without_documents (env : Env) (query : JsVal) (w : World) :
  (forall n,
      match outcome (qdrant_getCollections env n) with
      | Ok collections => existsb (String.eqb GLOBAL_COLLECTION_NAME) collections = false
      | Throw _ => True
      end) ->
  OPENAI_API_KEY env = false
  \/ (forall n model messages temperature maxTokens,
         requestFails 30000
           (createChatCompletion env n model messages temperature maxTokens)) ->
  exists w',
    generateChatResponse env query w
    = (Ok (ChatOk query
             "I don't have enough information to answer this question as no context was provided."
             []), w').
Proof.
  intros Hlisting Hprovider.
  destruct (generateChatResponse_run env query w)
    as (queryEmbedding & w1 & searchResults & w2 & generated & w'
        & _ & _ & Hgenerate & Hrun & _ & _ & _ & _ & _ & Hnone).
  specialize (Hnone (Hlisting (requests w1))). subst searchResults.
  destruct (GeneratorFacts.generateResponse_no_contexts env query w2 Hprovider)
    as (w'' & Hfixed).
  rewrite Hfixed in Hgenerate. injection Hgenerate as <- <-.
  exists w''. exact Hrun.
Qed.

(** A fresh installation without key, and one whose Qdrant and provider
    are both out of reach. *)
Lemma generateChatResponse_without_documents_witness :
  (exists w',
      generateChatResponse Sample.envNoKey (VString "What is Qdrant?") Sample.world
      = (Ok (ChatOk (VString "What is Qdrant?")
               "I don't have enough information to answer this question as no context was provided."
               []), w'))
  /\ (exists w',
         generateChatResponse Sample.envAllFail VNull Sample.world
         = (Ok (ChatOk VNull
                  "I don't have enough information to answer this question as no context was provided."
                  []), w')).
Proof.
  split.
  - apply (generateChatResponse_without_documents Sample.envNoKey
             (VString "What is Qdrant?") Sample.world).
    + intros n. reflexivity.
    + left. reflexivity.
  - apply (generateChatResponse_without_documents Sample.envAllFail VNull Sample.world).
    + intros n. reflexivity.
    + right. intros n model messages temperature maxTokens.
      right. eexists. reflexivity.
Defined.

End ChatFacts.

(** * The status report *)

Module StatusFacts.

Import RagService.

(** What [getSystemStatus] reports, field by field. *)
Lemma getSystemStatus_report (env : Env) (w : World) :
  let probe := qdrant_getCollection env (requests w) GLOBAL_COLLECTION_NAME in
  exists status w',
    getSystemStatus env w = (Ok (StatusJson.StatusOk status), w')
    /\ sameStore w w'
    /\ requests w' = S (requests w)
    /\ StatusJson.qdrantConnected status = initialized w
    /\ StatusJson.openaiAvailable status = OPENAI_API_KEY env
    /\ StatusJson.indexedDocuments status = mapValues (indexedDocuments w)
    /\ StatusJson.name (StatusJson.globalCollection status) = "global_documents"
    /\ match outcome probe with
       | Ok info =>
           StatusJson.exists_ (StatusJson.globalCollection status) = true
           /\ StatusJson.vectorCount (StatusJson.globalCollection status)
              = default 0%Z (vectors_count info)
       | Throw _ =>
           StatusJson.exists_ (StatusJson.globalCollection status) = false
           /\ StatusJson.vectorCount (StatusJson.globalCollection status) = 0%Z
       end.
Proof.
  intros probe.
  unfold getSystemStatus, tryCatch at 1.
  unfold bind at 1. cbn [gets].
  unfold bind at 1. unfold tryCatch at 1. unfold bind at 1.
  unfold VectorStore.getCollection, tryCatch at 1.
  unfold bind at 1. cbn [nextRequest]. unfold bind at 1. unfold await at 1.
  cbn [fst snd]. fold probe.
  destruct (outcome probe) as [info|e]; cbn;
    eexists _, _; (split; [reflexivity |]); cbn; repeat split.
Qed.

(** X17. [GET /status] always answers 200 with a report: the branch for 500
    is never taken, whatever Qdrant does. The report changes nothing. Its
    [qdrantConnected] is the flag set at start-up, not the outcome of the
    lookup made for this report, so it can say connected while
    [exists] is false because that lookup failed; [vectorCount] is 0 when
    Qdrant gives none. *)
Theorem status_route_always_reports (env : Env) (w : World) :
  let probe := qdrant_getCollection env (requests w) GLOBAL_COLLECTION_NAME in
  exists status w',
    StatusRoutes.handler env w
    = (Ok {| StatusRoutes.status := 200;
             StatusRoutes.json := StatusRoutes.Report (StatusJson.StatusOk status) |}, w')
    /\ sameStore w w'
    /\ StatusJson.qdrantConnected status = initialized w
    /\ StatusJson.openaiAvailable status = OPENAI_API_KEY env
    /\ StatusJson.indexedDocuments status = mapValues (indexedDocuments w)
    /\ match outcome probe with
       | Ok info =>
           StatusJson.exists_ (StatusJson.globalCollection status) = true
           /\ StatusJson.vectorCount (StatusJson.globalCollection status)
              = default 0%Z (vectors_count info)
       | Throw _ =>
           StatusJson.exists_ (StatusJson.globalCollection status) = false
           /\ StatusJson.vectorCount (StatusJson.globalCollection status) = 0%Z
       end.
Proof.
  intros probe.
  destruct (getSystemStatus_report env w)
    as (status & w' & Hrun & Hstore & _ & Hq & Ho & Hdocs & _ & Hprobe).
  exists status, w'. unfold StatusRoutes.handler, tryCatch. unfold bind. rewrite Hrun.
  split; [reflexivity |]. auto.
Qed.

(** [indexDocument] leaves the connection flag alone. *)
Lemma indexDocument_initialized (env : Env) (file : UploadedFile) (w : World) :
  initialized (snd (indexDocument env file w)) = initialized w.
Proof.
  set (fileType :=
         fileTypeOf (Js.drop 1 (Js.toLowerCase (path_extname env (originalname file))))).
  set (meta := (<["source_file" := VString (originalname file)]>
                  (<["file_type" := VString fileType]>
                     (<["created_at" := VString (pretty (clock w))]>
                        (<["document_id" := VString (uuidOf (uuids w))]> ∅))))
               : gmap string JsVal).
  destruct (ProcessFileFacts.processFile_run env (path file) fileType meta 25
              (setUuids (S (uuids w)) w))
    as (text & wa & chunks & wb & docs & w1 & _ & _ & Hprocess & _ & Hs1).
  destruct (Rules.spec_run _ _ w1
              (VectorStoreFacts.spec_addDocuments env GLOBAL_COLLECTION_NAME docs))
    as (storeResult & w2 & Hstore & _ & Hs2).
  assert (Hinit : initialized w2 = initialized w).
  { destruct Hs1 as (_ & _ & H1). destruct Hs2 as (_ & _ & H2).
    rewrite H2, H1. reflexivity. }
  unfold indexDocument, tryCatch at 1.
  unfold bind at 1. cbn [uuidv4].
  unfold bind at 1. cbn [toISOString gets setUuids clock].
  unfold bind at 1. fold fileType. fold meta.
  rewrite Hprocess.
  unfold bind at 1. rewrite Hstore.
  unfold bind at 1. unfold tryCatch at 1, unlinkAsync.
  destruct (fs w2 !! path file); cbn; exact Hinit.
Qed.

(** X18. [qdrantConnected] is what the probe at start-up found, for good: the
    constructor clears the flag and [initialize] sets it when Qdrant
    answers the listing, and neither indexing, nor chatting, nor asking
    for the status changes it afterwards. *)
Theorem qdrantConnected_is_the_start_up_probe (env : Env) (w : World) :
  (exists w1,
      VectorStore.initialize env (setInitialized false w) = (Ok tt, w1)
      /\ initialized w1
         = match outcome (qdrant_getCollections env (requests w)) with
           | Ok _ => true
           | Throw _ => false
           end
      /\ fs w1 = fs w
      /\ indexedDocuments w1 = indexedDocuments w)
  /\ (forall file, initialized (snd (indexDocument env file w)) = initialized w)
  /\ (forall query, initialized (snd (generateChatResponse env query w)) = initialized w)
  /\ initialized (snd (getSystemStatus env w)) = initialized w.
Proof.
  split.
  { unfold VectorStore.initialize, tryCatch. unfold bind at 1. cbn [nextRequest].
    unfold bind at 1. unfold await at 1. cbn [fst snd requests setInitialized].
    destruct (outcome (qdrant_getCollections env (requests w)));
      eexists; (split; [reflexivity |]); repeat split. }
  split; [intros file; apply indexDocument_initialized |].
  split.
  - intros query.
    destruct (ChatFacts.generateChatResponse_run env query w)
      as (queryEmbedding & w1 & searchResults & w2 & generated & w'
          & _ & _ & _ & Hrun & (_ & _ & Hinit) & _).
    rewrite Hrun. exact Hinit.
  - destruct (getSystemStatus_report env w) as (status & w' & Hrun & (_ & _ & Hinit) & _).
    rewrite Hrun. exact Hinit.
Qed.

End StatusFacts.

(** * The index route *)

Module IndexRouteFacts.

Import IndexRoute.

(** X19. An upload that [fileFilter] refuses, and one that exceeds the size
    limit, are answered with 400 by [handleUploadErrors]: the message of
    the filter is the one the middleware looks for. The handler is not
    reached, so nothing is indexed and the world stays as it is. *)
Theorem refused_upload_is_answered_with_400 (env : Env) (originalname : string)
    (w : World) :
  existsb (String.eqb (Js.toLowerCase (path_extname env originalname))) allowedFileTypes
  = false ->
  (exists e,
      fileFilter env originalname = Throw e
      /\ route env (UploadFailed (filterError e)) w
         = (Ok {| status := 400;
                  json := Refused "Unsupported file type. Only PDF, DOCX, PPT, images, and text files are allowed." |},
            w))
  /\ (forall text,
         route env
           (UploadFailed {| UploadMiddleware.code := Some "LIMIT_FILE_SIZE";
                            UploadMiddleware.message := text |}) w
         = (Ok {| status := 400;
                  json := Refused "File size limit exceeded (10MB maximum)" |}, w)).
Proof.
  intros Hext. split.
  - unfold fileFilter. rewrite Hext. eexists. split; reflexivity.
  - intros text. reflexivity.
Qed.

(** An executable in the sample process. *)
Lemma refused_upload_is_answered_with_400_witness :
  exists e,
    fileFilter Sample.env "setup.EXE" = Throw e
    /\ route Sample.env (UploadFailed (filterError e)) Sample.world
       = (Ok {| status := 400;
                json := Refused "Unsupported file type. Only PDF, DOCX, PPT, images, and text files are allowed." |},
          Sample.world).
Proof.
  destruct (refused_upload_is_answered_with_400 Sample.env "setup.EXE" Sample.world)
    as [Hfilter _]; [reflexivity | exact Hfilter].
Defined.

(** X20. Behind the filter the extension [indexDocument] switches on is one of
    nine, so the [default] branch of the switch is never taken for an
    upload; the type is [text] for [txt] alone. *)
Theorem accepted_upload_has_typed_extension (env : Env) (originalname : string) :
  fileFilter env originalname = Ok true ->
  let fileExtension := Js.drop 1 (Js.toLowerCase (path_extname env originalname)) in
  In fileExtension ["pdf"; "docx"; "doc"; "pptx"; "ppt"; "jpg"; "jpeg"; "png"; "txt"]
  /\ (RagService.fileTypeOf fileExtension = "text" <-> fileExtension = "txt").
Proof.
  unfold fileFilter.
  destruct (existsb _ allowedFileTypes) eqn:Hallowed; [| discriminate].
  intros _.
  apply existsb_exists in Hallowed as (allowed & Hin & Heq).
  apply String.eqb_eq in Heq. rewrite Heq.
  cbn in Hin.
  repeat (destruct Hin as [<- | Hin];
          [split; [cbn; tauto | split; [try discriminate; reflexivity
                                      | try discriminate; reflexivity]] |]).
  contradiction.
Qed.

(** A scan with an upper case extension. *)
Lemma accepted_upload_has_typed_extension_witness :
  In (Js.drop 1 (Js.toLowerCase (path_extname Sample.env "Scan.JPEG")))
     ["pdf"; "docx"; "doc"; "pptx"; "ppt"; "jpg"; "jpeg"; "png"; "txt"]
  /\ (RagService.fileTypeOf
        (Js.drop 1 (Js.toLowerCase (path_extname Sample.env "Scan.JPEG"))) = "text"
      <-> Js.drop 1 (Js.toLowerCase (path_extname Sample.env "Scan.JPEG")) = "txt").
Proof.
  apply (accepted_upload_has_typed_extension Sample.env "Scan.JPEG"). reflexivity.
Defined.



End IndexRouteFacts.

(** * The registry of indexed documents *)

Module RegistryFacts.

Import RagService.

Lemma mapSet_fresh {V} (k : string) (v : V) (m : list (string * V)) :
  ~ In k (map fst m) -> mapSet k v m = (m ++ [(k, v)])%list.
Proof.
  induction m as [|[k' v'] m IH]; intros Hfresh; cbn [mapSet app]; [reflexivity |].
  cbn [map fst In] in Hfresh.
  destruct (String.eqb_spec k k') as [-> | _]; [exfalso; apply Hfresh; left; reflexivity |].
  rewrite IH by (intros Hin; apply Hfresh; right; exact Hin). reflexivity.
Qed.

(** X22. Indexing keeps the registry: when the id drawn for the document
    is not yet a key of the registry, [indexDocument] appends one entry
    for it, with the name of the upload and the number of chunks it
    answers with, and leaves the earlier entries as they were and in
    their order; [getSystemStatus] then lists the earlier documents
    followed by the new one. *)
Theorem indexDocument_appends_to_registry (env : Env) (file : UploadedFile) (w : World) :
  ~ In (uuidOf (uuids w)) (map fst (indexedDocuments w)) ->
  exists documentCount w' entry status w'',
    indexDocument env file w
    = (Ok (IndexOk (uuidOf (uuids w)) GLOBAL_COLLECTION_NAME documentCount
             (originalname file)), w')
    /\ indexedDocuments w' = (indexedDocuments w ++ [(uuidOf (uuids w), entry)])%list
    /\ documentId entry = uuidOf (uuids w)
    /\ filename entry = originalname file
    /\ chunksCount entry = documentCount
    /\ getSystemStatus env w' = (Ok (StatusJson.StatusOk status), w'')
    /\ StatusJson.indexedDocuments status
       = (mapValues (indexedDocuments w) ++ [entry])%list.
Proof.
  intros Hfresh.
  destruct (RagServiceFacts.indexDocument_run env file w)
    as (docs & w1 & storeResult & w2 & w' & _ & _ & Hindex & _ & Hdocs).
  cbv zeta in Hindex, Hdocs.
  rewrite (mapSet_fresh _ _ _ Hfresh) in Hdocs.
  destruct (RagServiceFacts.getSystemStatus_run env w') as (status & w'' & Hstatus & Hlist).
  eexists (length docs), w', _, status, w''.
  split; [exact Hindex |]. split; [exact Hdocs |].
  split; [reflexivity |]. split; [reflexivity |]. split; [reflexivity |].
  split; [exact Hstatus |].
  rewrite Hlist, Hdocs. unfold mapValues. rewrite map_app. reflexivity.
Qed.

(** The first upload of the sample process. *)
Lemma indexDocument_appends_to_registry_witness :
  exists documentCount w' entry status w'',
    indexDocument Sample.env Sample.upload Sample.world
    = (Ok (IndexOk (uuidOf 0) GLOBAL_COLLECTION_NAME documentCount "notes.pdf"), w')
    /\ indexedDocuments w' = [(uuidOf 0, entry)]
    /\ documentId entry = uuidOf 0
    /\ filename entry = "notes.pdf"
    /\ chunksCount entry = documentCount
    /\ getSystemStatus Sample.env w' = (Ok (StatusJson.StatusOk status), w'')
    /\ StatusJson.indexedDocuments status = [entry].
Proof.
  apply (indexDocument_appends_to_registry Sample.env Sample.upload Sample.world).
  intros [].
Defined.

End RegistryFacts.

(** * Uploads that are not read *)

Module ReferenceFacts.

Import DocumentProcessor.

(** A reference to a file, [prefix ++ name ++ "]"] with a prefix that
    opens the bracket, is one paragraph that [trim] leaves alone. *)
Lemma reference_shape (prefix name : string) :
  (forall c, In c (list_ascii_of_string prefix) -> Js.isNewline c = false) ->
  (forall c, In c (list_ascii_of_string name) -> Js.isNewline c = false) ->
  Js.trimStart (prefix ++ name ++ "]") = prefix ++ name ++ "]" ->
  (forall c, In c (list_ascii_of_string (prefix ++ name ++ "]")) ->
             Js.isNewline c = false)
  /\ Js.trim (prefix ++ name ++ "]") = prefix ++ name ++ "]".
Proof.
  intros Hprefix Hname Hstart. split.
  - intros c Hc.
    apply ExtractFacts.In_append in Hc as [Hc | Hc]; [exact (Hprefix c Hc) |].
    apply ExtractFacts.In_append in Hc as [Hc | Hc]; [exact (Hname c Hc) |].
    cbn in Hc. destruct Hc as [<- | []]. reflexivity.
  - unfold Js.trim. rewrite Hstart.
    rewrite (ExtractFacts.append_assoc prefix name "]").
    apply ExtractFacts.trimEnd_last. reflexivity.
Qed.

(** X23. An image or a slide deck is never opened: for the types [image]
    and [ppt], whatever the upload directory holds at the path,
    [processFile] (with [maxChunks >= 1], and a file name without
    newline) returns exactly one document, and its text is the reference
    [[Image: name]] or [[PowerPoint: name]]. *)
Theorem processFile_references_images_and_slides (env : Env)
    (filePath fileType : string) (meta : gmap string JsVal) (maxChunks : Z) (w : World) :
  fileType = "image" \/ fileType = "ppt" ->
  (forall c, In c (list_ascii_of_string (path_basename env filePath)) ->
             Js.isNewline c = false) ->
  (1 <= maxChunks)%Z ->
  exists d w',
    processFile env filePath fileType meta maxChunks w = (Ok [d], w')
    /\ content (chunk d)
       = (if String.eqb fileType "image" then "[Image: " else "[PowerPoint: ")
         ++ path_basename env filePath ++ "]"
    /\ fs w' = fs w.
Proof.
  intros Htype Hname Hmax.
  set (prefix := if String.eqb fileType "image" then "[Image: " else "[PowerPoint: ").
  assert (Hextract : extractTextFromFile env filePath fileType w
                     = (Ok (prefix ++ path_basename env filePath ++ "]"), w))
    by (subst prefix; destruct Htype as [-> | ->]; reflexivity).
  assert (Hprefix : forall c, In c (list_ascii_of_string prefix) -> Js.isNewline c = false).
  { subst prefix. intros c Hc. destruct Htype as [-> | ->]; cbn in Hc;
      repeat (destruct Hc as [<- | Hc]; [reflexivity |]); contradiction. }
  assert (Hstart : Js.trimStart (prefix ++ path_basename env filePath ++ "]")
                   = prefix ++ path_basename env filePath ++ "]")
    by (subst prefix; destruct Htype as [-> | ->]; reflexivity).
  destruct (reference_shape prefix (path_basename env filePath) Hprefix Hname Hstart)
    as [Hnl Htrim].
  assert (Hsome : Js.trim (prefix ++ path_basename env filePath ++ "]") <> EmptyString).
  { rewrite Htrim. subst prefix. destruct Htype as [-> | ->]; discriminate. }
  destruct (ExtractFacts.processFile_one_paragraph env filePath fileType _ meta maxChunks w
              Hextract Hnl Hsome Hmax) as (d & w' & Hrun & Hd).
  exists d, w'. split; [exact Hrun |]. split.
  - rewrite Hd. cbn [content]. exact Htrim.
  - destruct (ProcessFileFacts.processFile_run env filePath fileType meta maxChunks w)
      as (text & w1 & chunks & w2 & docs & w'' & _ & _ & Hrun' & _ & (Hfs & _)).
    rewrite Hrun in Hrun'. injection Hrun' as _ <-. exact Hfs.
Qed.

(** A scan in the sample process, whose upload directory does not hold
    it. *)
Lemma processFile_references_images_and_slides_witness :
  exists d w',
    processFile Sample.env "uploads/scan-7.png" "image" ∅ 25 Sample.world = (Ok [d], w')
    /\ content (chunk d) = "[Image: scan-7.png]"
    /\ fs w' = fs Sample.world.
Proof.
  apply (processFile_references_images_and_slides Sample.env "uploads/scan-7.png" "image"
           ∅ 25 Sample.world).
  - left. reflexivity.
  - intros c Hc. cbn in Hc.
    repeat (destruct Hc as [<- | Hc]; [reflexivity |]). contradiction.
  - lia.
Defined.

End ReferenceFacts.
